(** * Presence matrix of articles by research question

    A shallow embedding of [figures/heatmap-articles-research-question/main.py]
    (steps 1 to 4: discovery, parsing and aggregation, row ordering, matrix
    construction) and the properties of the presence matrix it builds.

    Scope of the model.
    - Text is ASCII: a Python [str] is a [string], one [ascii] per character.
      The character classes below are CPython's restricted to codes below 128.
    - Names are matched as on a POSIX system (case-sensitive); file names
      are far shorter than the 4300 digits past which [int] refuses a
      string.  [run] takes the discovered files as read; [run_fs] adds the
      files that [open] or the read refuses.
    - Step 5 (matplotlib / seaborn rendering) is outside the embedding,
      but for the size of the figure.
    - Line 26 of the script ([sorted(set().union(...))]) cannot raise and its
      result is overwritten on line 28; it is no part of [run] and is
      modelled apart. *)

From Stdlib Require Import String Ascii List ZArith Bool Arith Lia.
From Stdlib Require Import Permutation Sorted.
From Stdlib Require Import QArith DecimalString DecimalNat.
Import ListNotations.
Open Scope string_scope.
Open Scope nat_scope.
Open Scope list_scope.

Set Implicit Arguments.

(** ** Exceptions and results *)

Inductive exn : Type :=
| ValueError
| IndexError.

Inductive result (A : Type) : Type :=
| Ok (a : A)
| Raise (e : exn).

Arguments Ok {A} a.
Arguments Raise {A} e.

Definition bind {A B : Type} (r : result A) (k : A -> result B) : result B :=
  match r with
  | Ok a => k a
  | Raise e => Raise e
  end.

Notation "x <- r ;; k" := (bind r (fun x => k))
  (at level 61, r at next level, right associativity).

(** ** The Python built-ins the script calls *)

Module Py.

(** [str.isspace] on one ASCII character: codes 9-13, 28-31 and 32. *)
Definition isspace (c : ascii) : bool :=
  let n := nat_of_ascii c in
  ((9 <=? n) && (n <=? 13)) || ((28 <=? n) && (n <=? 31)) || (n =? 32).

(** Drop leading characters that satisfy [p]. *)
Fixpoint lstrip_by (p : ascii -> bool) (s : string) : string :=
  match s with
  | EmptyString => EmptyString
  | String c s' => if p c then lstrip_by p s' else s
  end.

(** Drop trailing characters that satisfy [p]. *)
Fixpoint rstrip_by (p : ascii -> bool) (s : string) : string :=
  match s with
  | EmptyString => EmptyString
  | String c s' =>
      match rstrip_by p s' with
      | EmptyString => if p c then EmptyString else String c EmptyString
      | t => String c t
      end
  end.

(** [s.strip()] *)
Definition strip (s : string) : string := rstrip_by isspace (lstrip_by isspace s).

(** [s.upper()] on ASCII: a-z to A-Z, everything else unchanged. *)
Definition upper_char (c : ascii) : ascii :=
  let n := nat_of_ascii c in
  if (97 <=? n) && (n <=? 122) then ascii_of_nat (n - 32) else c.

Fixpoint upper (s : string) : string :=
  match s with
  | EmptyString => EmptyString
  | String c s' => String (upper_char c) (upper s')
  end.

(** [s.split(sep)] for a non-empty separator: the pieces between the
    non-overlapping occurrences of [sep], found left to right.  [skip]
    counts the characters of a separator still to be passed over; [cur]
    is the current piece. *)
Fixpoint split_aux (sep : string) (skip : nat) (cur : string) (s : string) : list string :=
  match s with
  | EmptyString => [cur]
  | String c s' =>
      match skip with
      | S k => split_aux sep k cur s'
      | O =>
          if prefix sep s
          then cur :: split_aux sep (String.length sep - 1) EmptyString s'
          else split_aux sep 0 (cur ++ String c EmptyString)%string s'
      end
  end.

Definition split (sep s : string) : list string := split_aux sep 0 EmptyString s.

(** [l[i]] for a list: [IndexError] out of range. *)
Definition getitem {A : Type} (l : list A) (i : nat) : result A :=
  match nth_error l i with
  | Some a => Ok a
  | None => Raise IndexError
  end.

(** [s[-n:]]: the last [n] characters, the whole string when it is shorter. *)
Definition slice_last (n : nat) (s : string) : string :=
  substring (String.length s - n) n s.

(** Whitespace as [int()] skips it (C [Py_ISSPACE]): codes 9-13 and 32. *)
Definition int_isspace (c : ascii) : bool :=
  let n := nat_of_ascii c in
  ((9 <=? n) && (n <=? 13)) || (n =? 32).

Definition digit_val (c : ascii) : option Z :=
  let n := nat_of_ascii c in
  if (48 <=? n) && (n <=? 57) then Some (Z.of_nat (n - 48)) else None.

(** Decimal digits, single underscores allowed between two digits.
    [prev] tells whether the previous character was a digit. *)
Fixpoint int_digits (acc : Z) (prev : bool) (s : string) : option Z :=
  match s with
  | EmptyString => if prev then Some acc else None
  | String c s' =>
      match digit_val c with
      | Some d => int_digits (10 * acc + d)%Z true s'
      | None =>
          if Ascii.eqb c "_"%char && prev then int_digits acc false s' else None
      end
  end.

(** [int(s)] in base 10: surrounding whitespace, an optional sign, digits. *)
Definition int (s : string) : result Z :=
  let body := rstrip_by int_isspace (lstrip_by int_isspace s) in
  let parsed :=
    match body with
    | String "+"%char t => int_digits 0 false t
    | String "-"%char t => option_map Z.opp (int_digits 0 false t)
    | _ => int_digits 0 false body
    end in
  match parsed with
  | Some z => Ok z
  | None => Raise ValueError
  end.

(** Iterating a file opened in text mode with universal newlines: the
    lines of [s], each ended by "\n" where the file has "\n", "\r" or
    "\r\n"; a last line without terminator is kept as it is. *)
Definition LF : ascii := ascii_of_nat 10.
Definition CR : ascii := ascii_of_nat 13.

Fixpoint readlines_aux (cur : string) (s : string) : list string :=
  match s with
  | EmptyString =>
      match cur with
      | EmptyString => []
      | _ => [cur]
      end
  | String c s' =>
      if Ascii.eqb c LF then (cur ++ String LF EmptyString)%string :: readlines_aux EmptyString s'
      else if Ascii.eqb c CR then
        match s' with
        | String c' s'' =>
            if Ascii.eqb c' LF
            then (cur ++ String LF EmptyString)%string :: readlines_aux EmptyString s''
            else (cur ++ String LF EmptyString)%string :: readlines_aux EmptyString s'
        | EmptyString => [(cur ++ String LF EmptyString)%string]
        end
      else readlines_aux (cur ++ String c EmptyString)%string s'
  end.

Definition readlines (s : string) : list string := readlines_aux EmptyString s.

(** [sorted(l, key=f)]: the key is computed for every item, left to right
    (the first exception propagates), then the items are sorted by their
    keys with [<] alone; the sort is stable. *)
Section Sorted.
Variables (A K : Type) (ltb : K -> K -> bool).

Fixpoint decorate (key : A -> result K) (l : list A) : result (list (K * A)) :=
  match l with
  | [] => Ok []
  | a :: l' =>
      k <- key a ;;
      kl <- decorate key l' ;;
      Ok ((k, a) :: kl)
  end.

Fixpoint insert (x : K * A) (l : list (K * A)) : list (K * A) :=
  match l with
  | [] => [x]
  | y :: l' => if ltb (fst y) (fst x) then y :: insert x l' else x :: l
  end.

Definition stable_sort (l : list (K * A)) : list (K * A) :=
  fold_right insert [] l.

Definition sorted (key : A -> result K) (l : list A) : result (list A) :=
  kl <- decorate key l ;;
  Ok (map snd (stable_sort kl)).
End Sorted.

End Py.

Definition LFs : string := String Py.LF EmptyString.
Definition CRLFs : string := String Py.CR (String Py.LF EmptyString).

(** ** Insertion-ordered dictionaries

    A Python [dict] keeps its keys in the order of their first insertion;
    assigning to a key that is present replaces the value in place. *)

Definition dict (V : Type) : Type := list (string * V).

Fixpoint dict_get {V : Type} (k : string) (d : dict V) : option V :=
  match d with
  | [] => None
  | (k', v) :: d' => if String.eqb k' k then Some v else dict_get k d'
  end.

(** [d.get(k, default)] *)
Definition dict_get_default {V : Type} (k : string) (default : V) (d : dict V) : V :=
  match dict_get k d with
  | Some v => v
  | None => default
  end.

(** [d[k] = v] *)
Fixpoint dict_set {V : Type} (k : string) (v : V) (d : dict V) : dict V :=
  match d with
  | [] => [(k, v)]
  | (k', v') :: d' => if String.eqb k' k then (k', v) :: d' else (k', v') :: dict_set k v d'
  end.

Definition dict_keys {V : Type} (d : dict V) : list string := map fst d.

(** ** Sets of strings

    A Python [set] of strings is held as the list of its elements in the
    order in which iterating the set yields them.  That order depends on
    the hash seed of the process; it is a parameter of the model: any
    function from the sequence of insertions to an enumeration, without
    repetition, of the elements inserted. *)

Record SetOrder : Type := {
  set_iter : list string -> list string;
  set_iter_perm : forall l, Permutation (nodup string_dec l) (set_iter l)
}.

Definition mem (x : string) (s : list string) : bool := existsb (String.eqb x) s.

(** ** The presence matrix: a pandas [DataFrame] of integers *)

Record DataFrame : Type := {
  index : list string;
  columns : list string;
  values : list (list Z)
}.

(** [pd.DataFrame(v, index=idx, columns=cols)] *)
Definition DataFrame_fill (v : Z) (idx cols : list string) : DataFrame :=
  {| index := idx;
     columns := cols;
     values := map (fun _ => map (fun _ => v) cols) idx |}.

(** First value whose label is [l]. *)
Definition by_label {V : Type} (l : string) (labels : list string) (vs : list V) : option V :=
  dict_get l (combine labels vs).

(** [df.at[r, c]] *)
Definition at_get (df : DataFrame) (r c : string) : option Z :=
  match by_label r (index df) (values df) with
  | Some row => by_label c (columns df) row
  | None => None
  end.

(** [df.at[r, c] = v] for labels of the frame.  (For a label that the
    frame lacks pandas would enlarge the frame; the script never does
    that, see [fill_labels_present], and the model leaves the frame as it
    is.) *)
Definition set_labelled {V : Type} (l : string) (f : V -> V) (labels : list string) (vs : list V) : list V :=
  map (fun lv => if String.eqb (fst lv) l then f (snd lv) else snd lv) (combine labels vs).

Definition at_set (df : DataFrame) (r c : string) (v : Z) : DataFrame :=
  {| index := index df;
     columns := columns df;
     values := set_labelled r (set_labelled c (fun _ => v) (columns df)) (index df) (values df) |}.

(** ** The script *)

(** A directory entry: file name and contents. *)
Definition entry : Type := (string * string)%type.

(** Step 1: [glob.glob("rq*.txt")], case-sensitive: the names that start
    with "rq" and end with ".txt", in the order the directory lists them. *)
Definition fnmatch_rq_txt (name : string) : bool :=
  prefix "rq" name && (6 <=? String.length name) && String.eqb (Py.slice_last 4 name) ".txt".

Definition glob_rq_txt (dir : list entry) : list entry :=
  filter (fun e => fnmatch_rq_txt (fst e)) dir.

Section Script.
Variable order : SetOrder.

(** [{linha.strip() for linha in f if linha.strip()}] *)
Definition referencias (contents : string) : list string :=
  set_iter order
    (map Py.strip
       (filter (fun linha => negb (String.eqb (Py.strip linha) EmptyString))
          (Py.readlines contents))).

(** [arquivo.split('.')[0].upper()]; [split] never returns an empty list
    (lemma [split_aux_nonempty]), so [[0]] is the head. *)
Definition file_key (arquivo : string) : string :=
  Py.upper (hd EmptyString (Py.split "." arquivo)).

(** The inner loop of step 2: one increment for each element of the set. *)
Definition tally (refs : list string) (por_amostra : dict Z) : dict Z :=
  fold_left
    (fun d referencia => dict_set referencia (dict_get_default referencia 0%Z d + 1)%Z d)
    refs por_amostra.

(** Step 2: the body of the loop over the discovered files and the loop;
    the state is [(referencias_por_arquivo, referencias_por_amostra)]. *)
Definition read_file (st : dict (list string) * dict Z) (arquivo : entry)
  : dict (list string) * dict Z :=
  let refs := referencias (snd arquivo) in
  let key := file_key (fst arquivo) in
  (dict_set key refs (fst st), tally refs (snd st)).

Definition read_files (arquivos : list entry) : dict (list string) * dict Z :=
  fold_left read_file arquivos ([], []).

(** Step 3: the sort key [(x[1], int(x[0][-4:]))], tuples compared
    lexicographically, and the sorted list of identifiers. *)
Definition row_key (x : string * Z) : result (Z * Z) :=
  n <- Py.int (Py.slice_last 4 (fst x)) ;;
  Ok (snd x, n).

Definition tuple_ltb (a b : Z * Z) : bool :=
  (fst a <? fst b)%Z || ((fst a =? fst b)%Z && (snd a <? snd b)%Z).

Definition todas_referencias (por_amostra : dict Z) : result (list string) :=
  l <- Py.sorted tuple_ltb row_key por_amostra ;;
  Ok (map fst l).

(** Step 4: the column sort key [int(x.split('RQ')[1])], the frame of
    zeros and the two nested loops that set the cells. *)
Definition column_key (x : string) : result Z :=
  suffix <- Py.getitem (Py.split "RQ" x) 1 ;;
  Py.int suffix.

Definition fill_file (df : DataFrame) (item : string * list string) : DataFrame :=
  fold_left (fun d ref => at_set d ref (fst item) 1%Z) (snd item) df.

Definition presence (por_arquivo : dict (list string)) (rows : list string) : result DataFrame :=
  cols <- Py.sorted Z.ltb column_key (dict_keys por_arquivo) ;;
  Ok (fold_left fill_file por_arquivo (DataFrame_fill 0%Z rows cols)).

(** Steps 1 to 4. *)
Definition run (dir : list entry) : result DataFrame :=
  let st := read_files (glob_rq_txt dir) in
  rows <- todas_referencias (snd st) ;;
  presence (fst st) rows.
End Script.

(** Two admissible iteration orders. *)
Definition kept_order : SetOrder :=
  {| set_iter := nodup string_dec;
     set_iter_perm := fun l => Permutation_refl _ |}.

Definition reversed_order : SetOrder :=
  {| set_iter := fun l => rev (nodup string_dec l);
     set_iter_perm := fun l => Permutation_rev _ |}.

(** The contents of a file that holds the given lines, each ended by "\n". *)
Definition text (lines : list string) : string :=
  fold_right (fun l acc => (l ++ LFs ++ acc)%string) EmptyString lines.

(** ** Vocabulary of the properties *)

(** Orderings produced by [sorted]: in a list of decorated items, [x] may
    stand before [y] when [y]'s key is not below [x]'s; [keyed] says that
    the decoration is the item's key; [ascending] is the same on the items
    themselves. *)
Definition not_after {A K : Type} (ltb : K -> K -> bool) (x y : K * A) : Prop :=
  ltb (fst y) (fst x) = false.

Definition keyed {A K : Type} (key : A -> result K) (ka : K * A) : Prop :=
  key (snd ka) = Ok (fst ka).

Definition ascending {A K : Type} (ltb : K -> K -> bool) (key : A -> result K) (a b : A) : Prop :=
  exists ka kb, key a = Ok ka /\ key b = Ok kb /\ ltb kb ka = false.

(** Lexicographic [<=] on pairs of integers. *)
Definition lex_le (a b : Z * Z) : Prop :=
  (fst a < fst b)%Z \/ (fst a = fst b /\ (snd a <= snd b)%Z).

(** A line made of whitespace only (the empty line included). *)
Fixpoint all_chars (p : ascii -> bool) (s : string) : bool :=
  match s with
  | EmptyString => true
  | String c s' => p c && all_chars p s'
  end.


(** The identifiers of a file, as a property of its lines. *)
Definition identifier_of (contents x : string) : Prop :=
  exists linha, In linha (Py.readlines contents) /\ Py.strip linha = x /\ x <> EmptyString.

(** In how many of the files [x] is an identifier. *)
Definition file_frequency (order : SetOrder) (arquivos : list entry) (x : string) : Z :=
  Z.of_nat (length (filter (fun e => mem x (referencias order (snd e))) arquivos)).

(** The cell [(r, c)] once the loops of step 4 have run over the items
    [items] of [referencias_por_arquivo]. *)
Definition marked (items : dict (list string)) (r c : string) : bool :=
  existsb (fun item => String.eqb c (fst item) && mem r (snd item)) items.

(** The file that decides column [c]: the last discovered file whose key
    is [c]. *)
Definition last_with_key (arquivos : list entry) (c : string) (e : entry) : Prop :=
  exists before after,
    arquivos = before ++ e :: after /\
    file_key (fst e) = c /\
    forall e', In e' after -> file_key (fst e') <> c.

(** The key as the specification words it: the file name without its
    extension, in upper case. *)
Definition strip_extension (name : string) : string :=
  substring 0 (String.length name - 4) name.

Definition spec_key (name : string) : string := Py.upper (strip_extension name).

(** The set of a file can be read back from column [c] of the frame. *)
Definition column_set (df : DataFrame) (c : string) : list string :=
  filter (fun r => match at_get df r c with Some 1%Z => true | _ => false end) (index df).

(** The order of the rows: by (number of files, integer of the last four
    characters); the order of the columns: by the integer after "RQ". *)
Definition row_order (order : SetOrder) (arquivos : list entry) (a b : string) : Prop :=
  exists na nb,
    Py.int (Py.slice_last 4 a) = Ok na /\
    Py.int (Py.slice_last 4 b) = Ok nb /\
    lex_le (file_frequency order arquivos a, na) (file_frequency order arquivos b, nb).

Definition column_order (a b : string) : Prop :=
  exists x y, column_key a = Ok x /\ column_key b = Ok y /\ (x <= y)%Z.

(** The part of a name before its first dot. *)
Fixpoint before_dot (s : string) : string :=
  match s with
  | EmptyString => EmptyString
  | String c s' => if Ascii.eqb c "."%char then EmptyString else String c (before_dot s')
  end.

Definition no_dot (s : string) : bool := all_chars (fun c => negb (Ascii.eqb c "."%char)) s.

Definition empty_frame : DataFrame := {| index := []; columns := []; values := [] |}.

(** ** Sample inputs *)

(** Three research questions listed out of order, a file that discovery
    skips, a repeated line, blank lines, trailing whitespace and a file
    with "\r\n" line ends. *)
Definition sample_dir : list entry :=
  [("rq2.txt", text ["A0002"; " "; "A0003"]);
   ("rq1.txt", text ["A0001"; "A0002 "; ""; "A0001"]);
   ("notes.txt", text ["B"]);
   ("rq10.txt", ("A0001" ++ CRLFs)%string)].

Definition sample_frame : DataFrame :=
  {| index := ["A0003"; "A0001"; "A0002"];
     columns := ["RQ1"; "RQ2"; "RQ10"];
     values := [[0; 1; 0]; [1; 0; 1]; [1; 1; 0]]%Z |}.

(** The example of the specification, and the same with identifiers that
    end in four digits. *)
Definition spec_example : list entry :=
  [("rq1.txt", text ["A1"; "A2"]); ("rq2.txt", text ["A2"])].

Definition padded_example : list entry :=
  [("rq1.txt", text ["A0001"; "A0002"]); ("rq2.txt", text ["A0002"])].

Definition padded_frame : DataFrame :=
  {| index := ["A0001"; "A0002"];
     columns := ["RQ1"; "RQ2"];
     values := [[1; 0]; [1; 1]]%Z |}.

(** Two names that agree before their first dot. *)
Definition collision_dir : list entry :=
  [("rq1.txt", text ["A0001"]); ("rq1.v2.txt", text ["B0002"])].

Definition collision_frame : DataFrame :=
  {| index := ["A0001"; "B0002"];
     columns := ["RQ1"];
     values := [[0]; [1]]%Z |}.

(** Two keys with the same integer after "RQ", listed in both orders. *)
Definition tie_dir : list entry :=
  [("rq1.txt", text ["A0001"]); ("rq01.txt", text ["B0002"])].

Definition tie_dir_swapped : list entry :=
  [("rq01.txt", text ["B0002"]); ("rq1.txt", text ["A0001"])].

Definition tie_frame : DataFrame :=
  {| index := ["A0001"; "B0002"];
     columns := ["RQ1"; "RQ01"];
     values := [[1; 0]; [0; 1]]%Z |}.

Definition tie_frame_swapped : DataFrame :=
  {| index := ["A0001"; "B0002"];
     columns := ["RQ01"; "RQ1"];
     values := [[0; 1]; [1; 0]]%Z |}.

(** ** Vocabulary of the further properties *)

(** The items of a list in the order of their first occurrence: the order
    of the keys of a dictionary that was assigned the items one by one. *)
Definition first_seen (l : list string) : list string :=
  fold_left (fun acc x => if mem x acc then acc else acc ++ [x]) l [].

(** [x] has the row sort key [k]; [c] has the column sort key [n]. *)
Definition row_tie (order : SetOrder) (arquivos : list entry) (k : Z * Z) (x : string) : bool :=
  match Py.int (Py.slice_last 4 x) with
  | Ok n => (fst k =? file_frequency order arquivos x)%Z && (snd k =? n)%Z
  | Raise _ => false
  end.

Definition column_tie (n : Z) (c : string) : bool :=
  match column_key c with
  | Ok z => (n =? z)%Z
  | Raise _ => false
  end.

(** A frame of the declared shape whose cells are all 0 or 1. *)
Definition binary_frame (df : DataFrame) : Prop :=
  length (values df) = length (index df) /\
  Forall (fun row => length row = length (columns df) /\
                     Forall (fun v => v = 0%Z \/ v = 1%Z) row)
         (values df).

(** The number of cells of row [r] that hold 1. *)
Definition row_ones (df : DataFrame) (r : string) : nat :=
  length (filter (fun c => match at_get df r c with Some 1%Z => true | _ => false end)
            (columns df)).

(** The keys of the discovered files, in the order of discovery. *)
Definition derived_keys (arquivos : list entry) : list string :=
  map (fun e => file_key (fst e)) arquivos.

(** The decimal numeral of a natural number, and decimal digits. *)
Definition numeral (n : nat) : string := NilEmpty.string_of_uint (Nat.to_uint n).

Definition is_digit (c : ascii) : bool :=
  match Py.digit_val c with
  | Some _ => true
  | None => false
  end.

(** A text whose lines end in "\r\n", and lines that hold no line end. *)
Definition text_crlf (lines : list string) : string :=
  fold_right (fun l acc => (l ++ CRLFs ++ acc)%string) EmptyString lines.

Definition no_newline (l : string) : bool :=
  all_chars (fun c => negb (Ascii.eqb c Py.LF || Ascii.eqb c Py.CR)) l.

(** One file, two identifiers with the same row sort key. *)
Definition tied_rows_dir : list entry := [("rq1.txt", text ["A0001"; "B0001"])].

Definition tied_rows_frame : DataFrame :=
  {| index := ["B0001"; "A0001"]; columns := ["RQ1"]; values := [[1]; [1]]%Z |}.




(** The sort key of a row, from the identifier alone, and [<=] on keys. *)
Definition row_sort_key (order : SetOrder) (arquivos : list entry) (x : string)
  : result (Z * Z) :=
  row_key (x, file_frequency order arquivos x).

Definition key_le (a b : result (Z * Z)) : Prop :=
  exists ka kb, a = Ok ka /\ b = Ok kb /\ lex_le ka kb.

(** ** Files that cannot be read

    Line 18: [open] raises [OSError] for a discovered name that is a
    directory or a dangling link and the read raises [UnicodeDecodeError]
    for bytes that are not UTF-8.  On disk an entry is a name with the
    text the read yields or with the exception it raises; the loop of
    step 2 stops at the first discovered file that raises, before any
    sorting. *)
Inductive read_error : Type :=
| OSError
| UnicodeDecodeError.

Definition fs_entry : Type := (string * (string + read_error))%type.

Inductive outcome (A : Type) : Type :=
| Returned (a : A)
| Raised (e : exn)
| ReadRaised (e : read_error).

Arguments Returned {A} a.
Arguments Raised {A} e.
Arguments ReadRaised {A} e.

Definition glob_fs (dir : list fs_entry) : list fs_entry :=
  filter (fun e => fnmatch_rq_txt (fst e)) dir.

Fixpoint read_all (arquivos : list fs_entry) : list entry + read_error :=
  match arquivos with
  | [] => inl []
  | (name, inr e) :: _ => inr e
  | (name, inl contents) :: rest =>
      match read_all rest with
      | inl l => inl ((name, contents) :: l)
      | inr e => inr e
      end
  end.

(** Steps 2 to 4 on the files as read; [run order dir] is
    [steps_2_to_4 order (glob_rq_txt dir)]. *)
Definition steps_2_to_4 (order : SetOrder) (arquivos : list entry) : result DataFrame :=
  let st := read_files order arquivos in
  rows <- todas_referencias (snd st) ;;
  presence (fst st) rows.

Definition run_fs (order : SetOrder) (dir : list fs_entry) : outcome DataFrame :=
  match read_all (glob_fs dir) with
  | inr e => ReadRaised e
  | inl arquivos =>
      match steps_2_to_4 order arquivos with
      | Ok m => Returned m
      | Raise e => Raised e
      end
  end.

Definition readable (e : fs_entry) : Prop := exists contents, snd e = inl contents.

(** A directory with a sub-directory named like an input file. *)
Definition fs_sample : list fs_entry :=
  [("rq1.txt", inl (text ["A0001"; "A0002"])); ("rq2.txt", inl (text ["A0002"]))].

Definition fs_unreadable : list fs_entry :=
  [("rq1.txt", inl (text ["A1"])); ("rq2.txt", inr OSError); ("rq3.txt", inr UnicodeDecodeError)].

(** ** The rest of the script *)

(** Line 26, [sorted] of the [union] of all the values of
    [referencias_por_arquivo], unpacked as arguments: the union receives the elements of the stored sets one set after the other;
    strings compare by code point. *)
Definition uniao (order : SetOrder) (por_arquivo : dict (list string)) : list string :=
  set_iter order (concat (map snd por_arquivo)).

Definition primeira_lista (order : SetOrder) (por_arquivo : dict (list string))
  : result (list string) :=
  Py.sorted String.ltb (fun x => Ok x) (uniao order por_arquivo).

(** Lines 40 to 46, the size of the figure.  [0.25] and [0.5] are powers
    of two and the counts are far below 2^53, so the two products are exact
    in binary floating point; they are rationals here.  [max(a, b)] returns
    [b] when [b > a] and [a] otherwise. *)
Definition py_max (a b : Q) : Q := if Qlt_le_dec a b then b else a.

Definition altura_por_linha : Q := Qmake 1 4.
Definition largura_por_coluna : Q := Qmake 1 2.

Definition n_linhas (df : DataFrame) : nat := length (index df).
Definition n_colunas (df : DataFrame) : nat := length (columns df).

Definition altura (df : DataFrame) : Q :=
  py_max (inject_Z 4) (Qmult (inject_Z (Z.of_nat (n_linhas df))) altura_por_linha).

Definition largura (df : DataFrame) : Q :=
  py_max (inject_Z 6) (Qmult (inject_Z (Z.of_nat (n_colunas df))) largura_por_coluna).

(** * Properties *)

Unset Implicit Arguments.

(** ** Results *)

Lemma bind_Ok {A B : Type} (r : result A) (k : A -> result B) (b : B) :
  bind r k = Ok b -> exists a, r = Ok a /\ k a = Ok b.
Proof.
  destruct r as [a | e]; simpl; intros H; [eauto | discriminate].
Qed.

(** ** Membership *)

Lemma mem_In (x : string) (s : list string) : mem x s = true <-> In x s.
Proof.
  unfold mem. rewrite existsb_exists. split.
  - intros (y & Hy & E). apply String.eqb_eq in E. now subst.
  - intros H. exists x. split; [assumption | apply String.eqb_refl].
Qed.

Lemma mem_false (x : string) (s : list string) : mem x s = false <-> ~ In x s.
Proof.
  rewrite <- mem_In. destruct (mem x s); split; congruence.
Qed.

(** ** Dictionaries *)

Section DictFacts.
Context {V : Type}.
Implicit Types (d : dict V) (k : string) (v : V).

Lemma dict_get_set k k' v d :
  dict_get k (dict_set k' v d) = if String.eqb k' k then Some v else dict_get k d.
Proof.
  induction d as [| [k0 v0] d IH]; simpl.
  - reflexivity.
  - destruct (String.eqb_spec k0 k') as [E | N]; simpl.
    + subst k0. destruct (String.eqb k' k); reflexivity.
    + rewrite IH. destruct (String.eqb_spec k0 k) as [E | N'].
      * subst k0. apply String.eqb_neq in N. rewrite String.eqb_sym in N.
        now rewrite N.
      * reflexivity.
Qed.

Lemma dict_get_None k d : dict_get k d = None <-> ~ In k (dict_keys d).
Proof.
  induction d as [| [k0 v0] d IH]; simpl.
  - tauto.
  - destruct (String.eqb_spec k0 k) as [E | N].
    + split; [discriminate | intros H; exfalso; apply H; now left].
    + rewrite IH. tauto.
Qed.

Lemma dict_get_Some_In k v d : dict_get k d = Some v -> In (k, v) d.
Proof.
  induction d as [| [k0 v0] d IH]; simpl; [discriminate |].
  destruct (String.eqb_spec k0 k) as [E | N].
  - intros [= ->]. left. now subst.
  - intros H. right. now apply IH.
Qed.

Lemma dict_In_get k v d : NoDup (dict_keys d) -> In (k, v) d -> dict_get k d = Some v.
Proof.
  induction d as [| [k0 v0] d IH]; simpl; [tauto |].
  intros ND [E | H]; inversion ND as [| ? ? Hnot ND']; subst.
  - injection E as -> ->. now rewrite String.eqb_refl.
  - destruct (String.eqb_spec k0 k) as [E | N].
    + subst k0. exfalso. apply Hnot. change k with (fst (k, v)).
      now apply in_map.
    + now apply IH.
Qed.

Lemma dict_keys_set k v d :
  dict_keys (dict_set k v d) = if mem k (dict_keys d) then dict_keys d else dict_keys d ++ [k].
Proof.
  induction d as [| [k0 v0] d IH]; simpl.
  - reflexivity.
  - destruct (String.eqb_spec k0 k) as [E | N]; simpl.
    + subst k0. now rewrite String.eqb_refl.
    + rewrite IH. apply String.eqb_neq in N. rewrite String.eqb_sym in N.
      rewrite N. simpl. now destruct (mem k (dict_keys d)).
Qed.

Lemma dict_keys_set_In k v d x :
  In x (dict_keys (dict_set k v d)) <-> In x (dict_keys d) \/ x = k.
Proof.
  rewrite dict_keys_set. destruct (mem k (dict_keys d)) eqn:M.
  - apply mem_In in M. split; [tauto | intros [H | ->]; assumption].
  - rewrite in_app_iff. simpl. intuition congruence.
Qed.

Lemma dict_keys_set_NoDup k v d : NoDup (dict_keys d) -> NoDup (dict_keys (dict_set k v d)).
Proof.
  intros ND. rewrite dict_keys_set. destruct (mem k (dict_keys d)) eqn:M.
  - assumption.
  - apply mem_false in M. apply NoDup_app; [assumption | repeat constructor; simpl; tauto |].
    intros x Hx [<- | []]. contradiction.
Qed.
End DictFacts.

(** ** [sorted] *)

Section SortedFacts.
Context {A K : Type}.
Variable ltb : K -> K -> bool.
Variable key : A -> result K.
Hypothesis ltb_asym : forall a b, ltb a b = true -> ltb b a = false.

Local Abbreviation not_after := (not_after ltb).
Local Abbreviation keyed := (keyed key).
Local Abbreviation ascending := (ascending ltb key).

Lemma decorate_Ok l kl :
  Py.decorate key l = Ok kl -> map snd kl = l /\ Forall keyed kl.
Proof.
  revert kl. induction l as [| a l IH]; simpl; intros kl H.
  - injection H as <-. split; constructor.
  - apply bind_Ok in H as (k & Hk & H).
    apply bind_Ok in H as (kl' & Hkl & H).
    injection H as <-. destruct (IH _ Hkl) as [E F]. simpl. split.
    + now rewrite E.
    + constructor; assumption.
Qed.

Lemma decorate_total l :
  (forall a, In a l -> exists k, key a = Ok k) -> exists kl, Py.decorate key l = Ok kl.
Proof.
  induction l as [| a l IH]; simpl; intros H.
  - eauto.
  - destruct (H a (or_introl eq_refl)) as [k Hk]. rewrite Hk. simpl.
    destruct IH as [kl Hkl]; [intros; apply H; now right |].
    rewrite Hkl. simpl. eauto.
Qed.

Lemma decorate_Raise l a e :
  In a l -> key a = Raise e ->
  (forall a' e', In a' l -> key a' = Raise e' -> e' = e) ->
  Py.decorate key l = Raise e.
Proof.
  induction l as [| b l IH]; simpl; intros Hin Ha Hall; [contradiction |].
  destruct (key b) as [k | e'] eqn:Hb; simpl.
  - destruct Hin as [-> | Hin]; [congruence |].
    rewrite IH; [reflexivity | assumption | assumption |].
    intros a' e' Ha' He'. apply (Hall a' e'); [now right | assumption].
  - f_equal. apply (Hall b e'); [now left | assumption].
Qed.

Lemma insert_perm (x : K * A) l : Permutation (Py.insert ltb x l) (x :: l).
Proof.
  induction l as [| y l IH]; simpl.
  - apply Permutation_refl.
  - destruct (ltb (fst y) (fst x)).
    + rewrite IH. apply perm_swap.
    + apply Permutation_refl.
Qed.

Lemma stable_sort_perm (l : list (K * A)) : Permutation (Py.stable_sort ltb l) l.
Proof.
  induction l as [| x l IH]; simpl.
  - constructor.
  - rewrite insert_perm. now constructor.
Qed.

Lemma insert_Sorted (x : K * A) l : Sorted not_after l -> Sorted not_after (Py.insert ltb x l).
Proof.
  induction l as [| y l IH]; simpl; intros S.
  - repeat constructor.
  - destruct (ltb (fst y) (fst x)) eqn:E.
    + inversion S as [| ? ? S' Hd]; subst. constructor; [now apply IH |].
      destruct l as [| z l]; simpl.
      * constructor. now apply ltb_asym.
      * destruct (ltb (fst z) (fst x)).
        -- inversion Hd; subst. now constructor.
        -- constructor. now apply ltb_asym.
    + constructor; [assumption | now constructor].
Qed.

Lemma stable_sort_Sorted (l : list (K * A)) : Sorted not_after (Py.stable_sort ltb l).
Proof.
  induction l as [| x l IH]; simpl; [constructor | now apply insert_Sorted].
Qed.

(** What a successful [sorted] returns: the same items, each with a key,
    no item's key below its predecessor's. *)
Lemma Sorted_map_snd kl :
  Forall keyed kl -> Sorted not_after kl -> Sorted ascending (map snd kl).
Proof.
  induction kl as [| [k a] kl IH]; simpl; intros F S; [constructor |].
  inversion F as [| ? ? Hk F']; inversion S as [| ? ? S' Hd]; subst.
  constructor; [now apply IH |].
  destruct kl as [| [k' a'] kl]; simpl; constructor.
  inversion Hd; inversion F'; subst. exists k, k'. auto.
Qed.

Lemma sorted_Ok l r :
  Py.sorted ltb key l = Ok r -> Permutation r l /\ Sorted ascending r.
Proof.
  unfold Py.sorted. intros H. apply bind_Ok in H as (kl & Hkl & H).
  injection H as <-. apply decorate_Ok in Hkl as [E F]. split.
  - rewrite <- E. apply Permutation_map, stable_sort_perm.
  - apply Sorted_map_snd; [| apply stable_sort_Sorted].
    eapply Permutation_Forall; [| exact F].
    symmetry. apply stable_sort_perm.
Qed.

Lemma sorted_total l :
  (forall a, In a l -> exists k, key a = Ok k) -> exists r, Py.sorted ltb key l = Ok r.
Proof.
  intros H. destruct (decorate_total _ H) as [kl Hkl].
  unfold Py.sorted. rewrite Hkl. simpl. eauto.
Qed.

Lemma sorted_Raise l a e :
  In a l -> key a = Raise e ->
  (forall a' e', In a' l -> key a' = Raise e' -> e' = e) ->
  Py.sorted ltb key l = Raise e.
Proof.
  intros Hin Ha Hall. unfold Py.sorted.
  rewrite decorate_Raise with (a := a) (e := e); trivial.
Qed.
End SortedFacts.

(** Two lists without repetition that hold the same items and are both
    ascending for keys that tell the items apart are the same list. *)
Section SortedUnique.
Context {A : Type}.
Variable le : A -> A -> Prop.
Hypothesis le_trans : forall a b c, le a b -> le b c -> le a c.

Lemma Sorted_perm_unique (l l' : list A) :
  (forall a b, In a l -> In b l -> le a b -> le b a -> a = b) ->
  Sorted le l -> Sorted le l' -> Permutation l l' -> NoDup l -> l = l'.
Proof.
  intros Hanti S S'.
  apply Sorted_StronglySorted in S; [| exact le_trans].
  apply Sorted_StronglySorted in S'; [| exact le_trans].
  revert l' S' Hanti. induction S as [| a l S IH Ha]; intros l' S' Hanti P ND.
  - apply Permutation_nil in P. now subst.
  - destruct S' as [| b l' S' Hb].
    + symmetry in P. apply Permutation_nil in P. discriminate.
    + assert (E : a = b).
      { assert (Hb_in : In b (a :: l)).
        { apply Permutation_in with (l := b :: l'); [now symmetry | now left]. }
        assert (Ha_in : In a (b :: l')).
        { apply Permutation_in with (l := a :: l); [assumption | now left]. }
        destruct Hb_in as [E | Hb_in]; [assumption |].
        destruct Ha_in as [E | Ha_in]; [now symmetry |].
        rewrite Forall_forall in Ha, Hb.
        apply Hanti; [now left | now right | now apply Ha | now apply Hb]. }
      subst b. f_equal. inversion ND; subst. apply IH; try assumption.
      * intros x y Hx Hy. apply Hanti; now right.
      * now apply Permutation_cons_inv in P.
Qed.
End SortedUnique.

(** ** Frames *)

Lemma by_label_set_labelled {V : Type} (l l0 : string) (f : V -> V) (labels : list string) (vs : list V) :
  by_label l labels (set_labelled l0 f labels vs) =
  option_map (fun x => if String.eqb l l0 then f x else x) (by_label l labels vs).
Proof.
  unfold by_label, set_labelled. revert vs.
  induction labels as [| l1 labels IH]; intros [| v vs]; simpl; try reflexivity.
  destruct (String.eqb_spec l1 l) as [E | N].
  - subst l1. reflexivity.
  - apply IH.
Qed.

Lemma at_get_at_set (df : DataFrame) (r c r' c' : string) (v : Z) :
  at_get (at_set df r c v) r' c' =
  option_map (fun x => if String.eqb r' r && String.eqb c' c then v else x) (at_get df r' c').
Proof.
  unfold at_get, at_set. simpl. rewrite by_label_set_labelled.
  destruct (by_label r' (index df) (values df)) as [row |]; simpl; [| reflexivity].
  destruct (String.eqb r' r); simpl.
  - rewrite by_label_set_labelled.
    destruct (by_label c' (columns df) row); simpl; [| reflexivity].
    now destruct (String.eqb c' c).
  - now destruct (by_label c' (columns df) row).
Qed.

Lemma by_label_const {V : Type} (l : string) (labels : list string) (v : V) :
  In l labels -> by_label l labels (map (fun _ => v) labels) = Some v.
Proof.
  unfold by_label. induction labels as [| l1 labels IH]; simpl; [tauto |].
  intros H. destruct (String.eqb_spec l1 l) as [E | N]; [reflexivity |].
  apply IH. destruct H; [contradiction | assumption].
Qed.

Lemma at_get_fill (v : Z) (idx cols : list string) (r c : string) :
  In r idx -> In c cols -> at_get (DataFrame_fill v idx cols) r c = Some v.
Proof.
  intros Hr Hc. unfold at_get, DataFrame_fill. simpl.
  rewrite by_label_const by assumption. now apply by_label_const.
Qed.

Lemma at_set_index df r c v : index (at_set df r c v) = index df.
Proof. reflexivity. Qed.

Lemma at_set_columns df r c v : columns (at_set df r c v) = columns df.
Proof. reflexivity. Qed.

Lemma fill_file_labels df item :
  index (fill_file df item) = index df /\ columns (fill_file df item) = columns df.
Proof.
  unfold fill_file. generalize (snd item). intros refs. revert df.
  induction refs as [| x refs IH]; simpl; intros df; [tauto |].
  destruct (IH (at_set df x (fst item) 1%Z)) as [-> ->]. tauto.
Qed.

Lemma fill_labels items df :
  index (fold_left fill_file items df) = index df /\
  columns (fold_left fill_file items df) = columns df.
Proof.
  revert df. induction items as [| item items IH]; simpl; intros df; [tauto |].
  destruct (IH (fill_file df item)) as [-> ->]. apply fill_file_labels.
Qed.

Lemma at_get_fill_file df item r c :
  at_get (fill_file df item) r c =
  option_map (fun x => if String.eqb c (fst item) && mem r (snd item) then 1%Z else x)
    (at_get df r c).
Proof.
  unfold fill_file. destruct item as [k refs]. simpl. revert df.
  induction refs as [| x refs IH]; simpl; intros df.
  - rewrite andb_false_r. now destruct (at_get df r c).
  - rewrite IH, at_get_at_set. destruct (at_get df r c) as [z |]; simpl; [| reflexivity].
    f_equal.
    destruct (String.eqb c k), (String.eqb r x), (mem r refs); reflexivity.
Qed.

Lemma at_get_fold_fill items df r c :
  at_get (fold_left fill_file items df) r c =
  option_map (fun x => if marked items r c then 1%Z else x) (at_get df r c).
Proof.
  revert df. induction items as [| item items IH]; simpl; intros df.
  - now destruct (at_get df r c).
  - rewrite IH, at_get_fill_file. destruct (at_get df r c) as [z |]; simpl; [| reflexivity].
    f_equal. destruct (String.eqb c (fst item) && mem r (snd item)); simpl; [| reflexivity].
    now destruct (marked items r c).
Qed.

Lemma marked_dict_get (items : dict (list string)) (r c : string) :
  NoDup (dict_keys items) ->
  marked items r c = match dict_get c items with Some refs => mem r refs | None => false end.
Proof.
  induction items as [| [k refs] items IH]; simpl; intros ND; [reflexivity |].
  inversion ND as [| ? ? Hnot ND']; subst. rewrite (String.eqb_sym c k).
  destruct (String.eqb_spec k c) as [E | N]; simpl.
  - subst k. destruct (mem r refs) eqn:M; [reflexivity |]. simpl.
    unfold marked. apply not_true_is_false. intros H.
    apply existsb_exists in H as ([k' refs'] & Hin & H). simpl in H.
    apply andb_prop in H as [H _]. apply String.eqb_eq in H. subst k'.
    apply Hnot. change c with (fst (c, refs')). now apply in_map.
  - now apply IH.
Qed.

(** ** Stripping *)

Lemma lstrip_by_empty p s : Py.lstrip_by p s = EmptyString <-> all_chars p s = true.
Proof.
  induction s as [| c s IH]; simpl.
  - tauto.
  - destruct (p c); simpl; [assumption | split; discriminate].
Qed.




(** ** Parsing one file *)

Lemma set_iter_In order l x : In x (set_iter order l) <-> In x l.
Proof.
  split; intros H.
  - apply (nodup_In string_dec).
    apply Permutation_in with (l := set_iter order l); [| assumption].
    symmetry. apply set_iter_perm.
  - apply Permutation_in with (l := nodup string_dec l); [apply set_iter_perm |].
    now apply nodup_In.
Qed.

Lemma set_iter_NoDup order l : NoDup (set_iter order l).
Proof.
  eapply Permutation_NoDup; [apply set_iter_perm | apply NoDup_nodup].
Qed.

Lemma referencias_NoDup order contents : NoDup (referencias order contents).
Proof. apply set_iter_NoDup. Qed.

Lemma referencias_In order contents x :
  In x (referencias order contents) <-> identifier_of contents x.
Proof.
  unfold referencias, identifier_of. rewrite set_iter_In, in_map_iff. split.
  - intros (linha & E & H). apply filter_In in H as [H N]. exists linha.
    repeat split; try assumption. subst x.
    apply negb_true_iff in N. now apply String.eqb_neq in N.
  - intros (linha & H & E & N). exists linha. split; [assumption |].
    apply filter_In. split; [assumption |]. apply negb_true_iff.
    apply String.eqb_neq. congruence.
Qed.

(** ** The tally *)

Lemma tally_get refs (d : dict Z) x :
  NoDup refs ->
  dict_get x (tally refs d) =
  if mem x refs then Some (dict_get_default x 0%Z d + 1)%Z else dict_get x d.
Proof.
  unfold tally. revert d. induction refs as [| r refs IH]; simpl; intros d ND.
  - reflexivity.
  - inversion ND as [| ? ? Hnot ND']; subst. rewrite IH by assumption.
    rewrite (String.eqb_sym x r).
    destruct (String.eqb_spec r x) as [E | N]; simpl.
    + subst r. apply mem_false in Hnot. rewrite Hnot.
      now rewrite dict_get_set, String.eqb_refl.
    + unfold dict_get_default. rewrite dict_get_set.
      apply String.eqb_neq in N. now rewrite N.
Qed.

Lemma tally_keys_In refs (d : dict Z) x :
  In x (dict_keys (tally refs d)) <-> In x (dict_keys d) \/ In x refs.
Proof.
  unfold tally. revert d. induction refs as [| r refs IH]; simpl; intros d.
  - tauto.
  - rewrite IH, dict_keys_set_In. intuition congruence.
Qed.

Lemma tally_keys_NoDup refs (d : dict Z) :
  NoDup (dict_keys d) -> NoDup (dict_keys (tally refs d)).
Proof.
  unfold tally. revert d. induction refs as [| r refs IH]; simpl; intros d ND.
  - assumption.
  - apply IH. now apply dict_keys_set_NoDup.
Qed.

(** ** Reading the files *)

Section ReadFiles.
Variable order : SetOrder.

Lemma read_files_snoc arquivos e :
  read_files order (arquivos ++ [e]) = read_file order (read_files order arquivos) e.
Proof. unfold read_files. now rewrite fold_left_app. Qed.

Lemma file_frequency_snoc arquivos e x :
  file_frequency order (arquivos ++ [e]) x =
  (file_frequency order arquivos x + if mem x (referencias order (snd e)) then 1 else 0)%Z.
Proof.
  unfold file_frequency. rewrite filter_app, length_app, Nat2Z.inj_add. f_equal.
  cbn [filter]. now destruct (mem x (referencias order (snd e))).
Qed.

Lemma file_frequency_nonneg arquivos x : (0 <= file_frequency order arquivos x)%Z.
Proof. unfold file_frequency. lia. Qed.

Lemma file_frequency_pos arquivos x :
  (0 < file_frequency order arquivos x)%Z <->
  exists e, In e arquivos /\ In x (referencias order (snd e)).
Proof.
  unfold file_frequency. split.
  - intros H.
    destruct (filter (fun e => mem x (referencias order (snd e))) arquivos) as [| e l] eqn:E;
      [simpl in H; lia |].
    assert (Hin : In e (e :: l)) by now left.
    rewrite <- E in Hin. apply filter_In in Hin as [Hin M]. apply mem_In in M. eauto.
  - intros (e & Hin & Hx).
    assert (H : In e (filter (fun e => mem x (referencias order (snd e))) arquivos)).
    { apply filter_In. split; [assumption | now apply mem_In]. }
    destruct (filter (fun e => mem x (referencias order (snd e))) arquivos);
      [contradiction | simpl; lia].
Qed.

(** The tally holds, for each identifier, the number of files that
    contain it, and nothing else. *)
Lemma tally_read_files arquivos x :
  dict_get x (snd (read_files order arquivos)) =
  if (file_frequency order arquivos x =? 0)%Z then None
  else Some (file_frequency order arquivos x).
Proof.
  induction arquivos as [| e arquivos IH] using rev_ind.
  - reflexivity.
  - rewrite read_files_snoc, file_frequency_snoc. unfold read_file. simpl.
    rewrite tally_get by apply referencias_NoDup.
    unfold dict_get_default. rewrite IH.
    pose proof (file_frequency_nonneg arquivos x) as Hge.
    destruct (mem x (referencias order (snd e))).
    + destruct (Z.eqb_spec (file_frequency order arquivos x) 0) as [E | N].
      * rewrite E. reflexivity.
      * destruct (Z.eqb_spec (file_frequency order arquivos x + 1) 0); [lia | reflexivity].
    + now rewrite Z.add_0_r.
Qed.

Lemma tally_keys_NoDup_read_files arquivos :
  NoDup (dict_keys (snd (read_files order arquivos))).
Proof.
  induction arquivos as [| e arquivos IH] using rev_ind.
  - constructor.
  - rewrite read_files_snoc. unfold read_file. simpl. now apply tally_keys_NoDup.
Qed.

Lemma tally_keys_read_files arquivos x :
  In x (dict_keys (snd (read_files order arquivos))) <->
  exists e, In e arquivos /\ In x (referencias order (snd e)).
Proof.
  rewrite <- file_frequency_pos.
  pose proof (tally_read_files arquivos x) as H.
  pose proof (file_frequency_nonneg arquivos x) as Hge.
  destruct (Z.eqb_spec (file_frequency order arquivos x) 0) as [E | N].
  - apply dict_get_None in H. split; [contradiction | lia].
  - split; [lia |]. intros _.
    destruct (in_dec string_dec x (dict_keys (snd (read_files order arquivos))))
      as [Hin | Hnot]; [assumption |].
    apply dict_get_None in Hnot. congruence.
Qed.

(** [referencias_por_arquivo] holds, under each key, the set of the last
    file read with that key. *)
Lemma por_arquivo_keys_NoDup arquivos :
  NoDup (dict_keys (fst (read_files order arquivos))).
Proof.
  induction arquivos as [| e arquivos IH] using rev_ind.
  - constructor.
  - rewrite read_files_snoc. unfold read_file. simpl. now apply dict_keys_set_NoDup.
Qed.

Lemma por_arquivo_keys arquivos c :
  In c (dict_keys (fst (read_files order arquivos))) <->
  exists e, In e arquivos /\ file_key (fst e) = c.
Proof.
  induction arquivos as [| e arquivos IH] using rev_ind.
  - simpl. split; [tauto | intros (e & [] & _)].
  - rewrite read_files_snoc. unfold read_file. simpl.
    rewrite dict_keys_set_In, IH. split.
    + intros [(e' & Hin & E) | ->].
      * exists e'. split; [apply in_or_app; now left | assumption].
      * exists e. split; [apply in_or_app; right; now left | reflexivity].
    + intros (e' & Hin & E). apply in_app_or in Hin as [Hin | [<- | []]].
      * left. eauto.
      * right. now symmetry.
Qed.

Lemma por_arquivo_last arquivos c e :
  last_with_key arquivos c e ->
  dict_get c (fst (read_files order arquivos)) = Some (referencias order (snd e)).
Proof.
  intros (before & after & -> & Hc & Hafter). revert Hafter.
  induction after as [| e' after IH] using rev_ind; intros Hafter.
  - rewrite read_files_snoc.
    unfold read_file. simpl. rewrite dict_get_set, Hc. now rewrite String.eqb_refl.
  - replace (before ++ e :: after ++ [e']) with ((before ++ e :: after) ++ [e'])
      by now rewrite <- app_assoc.
    rewrite read_files_snoc. unfold read_file. simpl. rewrite dict_get_set.
    assert (N : file_key (fst e') <> c).
    { apply Hafter. apply in_or_app. right. now left. }
    apply String.eqb_neq in N. rewrite N. apply IH.
    intros e0 H0. apply Hafter. apply in_or_app. now left.
Qed.

End ReadFiles.

Lemma last_with_key_exists arquivos c :
  (exists e, In e arquivos /\ file_key (fst e) = c) ->
  exists e, last_with_key arquivos c e.
Proof.
  induction arquivos as [| e' arquivos IH] using rev_ind.
  - intros (e & [] & _).
  - intros (e & Hin & E).
    destruct (string_dec (file_key (fst e')) c) as [E' | N].
    + exists e', arquivos, []. repeat split; [assumption | intros ? []].
    + apply in_app_or in Hin as [Hin | [<- | []]]; [| contradiction].
      destruct IH as (e0 & before & after & -> & E0 & Hafter); [eauto |].
      exists e0, before, (after ++ [e']). repeat split.
      * now rewrite <- app_assoc.
      * assumption.
      * intros e1 H1. apply in_app_or in H1 as [H1 | [<- | []]]; auto.
Qed.

(** ** Orderings *)

Lemma tuple_ltb_asym a b : tuple_ltb a b = true -> tuple_ltb b a = false.
Proof.
  unfold tuple_ltb. destruct a as [a1 a2], b as [b1 b2]. simpl. intros H.
  apply orb_true_iff in H. rewrite andb_true_iff in H.
  rewrite Z.ltb_lt, Z.ltb_lt, Z.eqb_eq in H.
  apply orb_false_iff. rewrite andb_false_iff, Z.ltb_ge, Z.ltb_ge, Z.eqb_neq. lia.
Qed.

Lemma tuple_ltb_false a b : tuple_ltb b a = false -> lex_le a b.
Proof.
  unfold tuple_ltb, lex_le. destruct a as [a1 a2], b as [b1 b2]. simpl. intros H.
  apply orb_false_iff in H. rewrite andb_false_iff, Z.ltb_ge, Z.ltb_ge, Z.eqb_neq in H. lia.
Qed.

Lemma Z_ltb_asym a b : Z.ltb a b = true -> Z.ltb b a = false.
Proof. rewrite Z.ltb_lt, Z.ltb_ge. lia. Qed.

Lemma Sorted_map_strengthen {A B : Type} (f : A -> B) (P : A -> Prop)
  (R : A -> A -> Prop) (R' : B -> B -> Prop) (l : list A) :
  (forall a b, P a -> P b -> R a b -> R' (f a) (f b)) ->
  Forall P l -> Sorted R l -> Sorted R' (map f l).
Proof.
  intros Himp. induction l as [| a l IH]; simpl; intros F S; [constructor |].
  inversion F as [| ? ? Pa F']; inversion S as [| ? ? S' Hd]; subst.
  constructor; [now apply IH |].
  destruct l as [| b l]; simpl; constructor.
  inversion Hd; inversion F'; subst. now apply Himp.
Qed.

Lemma int_Raise s e : Py.int s = Raise e -> e = ValueError.
Proof.
  unfold Py.int.
  destruct (match Py.rstrip_by Py.int_isspace (Py.lstrip_by Py.int_isspace s) with
            | String "+"%char t => Py.int_digits 0 false t
            | String "-"%char t => option_map Z.opp (Py.int_digits 0 false t)
            | _ => Py.int_digits 0 false
                     (Py.rstrip_by Py.int_isspace (Py.lstrip_by Py.int_isspace s))
            end); congruence.
Qed.

(** ** The run as a whole *)

Section Run.
Variable order : SetOrder.

Lemma row_key_Ok x k :
  row_key x = Ok k -> exists n, Py.int (Py.slice_last 4 (fst x)) = Ok n /\ k = (snd x, n).
Proof.
  unfold row_key. intros H. apply bind_Ok in H as (n & Hn & H).
  injection H as <-. eauto.
Qed.

Lemma row_key_Raise x e : row_key x = Raise e -> e = ValueError.
Proof.
  unfold row_key. destruct (Py.int (Py.slice_last 4 (fst x))) eqn:E; simpl.
  - discriminate.
  - intros [= <-]. now apply int_Raise in E.
Qed.

(** The steps a successful run went through. *)
Lemma run_Ok dir m :
  run order dir = Ok m ->
  let st := read_files order (glob_rq_txt dir) in
  exists items,
    Py.sorted tuple_ltb row_key (snd st) = Ok items /\
    index m = map fst items /\
    Py.sorted Z.ltb column_key (dict_keys (fst st)) = Ok (columns m) /\
    m = fold_left fill_file (fst st) (DataFrame_fill 0%Z (index m) (columns m)).
Proof.
  unfold run, todas_referencias, presence. intros H.
  apply bind_Ok in H as (rows & Hrows & H).
  apply bind_Ok in Hrows as (items & Hitems & Hrows). injection Hrows as <-.
  apply bind_Ok in H as (cols & Hcols & H). injection H as <-.
  exists items.
  destruct (fill_labels (fst (read_files order (glob_rq_txt dir)))
              (DataFrame_fill 0%Z (map fst items) cols)) as [Ei Ec].
  simpl in Ei, Ec. rewrite Ei, Ec. auto.
Qed.

Lemma run_index dir m :
  run order dir = Ok m ->
  Permutation (index m) (dict_keys (snd (read_files order (glob_rq_txt dir)))).
Proof.
  intros H. apply run_Ok in H as (items & Hitems & -> & _).
  apply (sorted_Ok tuple_ltb row_key tuple_ltb_asym) in Hitems as [P _].
  now apply Permutation_map.
Qed.

Lemma run_columns dir m :
  run order dir = Ok m ->
  Permutation (columns m) (dict_keys (fst (read_files order (glob_rq_txt dir)))).
Proof.
  intros H. apply run_Ok in H as (items & _ & _ & Hcols & _).
  now apply (sorted_Ok Z.ltb column_key Z_ltb_asym) in Hcols as [P _].
Qed.

Lemma run_index_In dir m x :
  run order dir = Ok m ->
  In x (index m) <->
  exists e, In e (glob_rq_txt dir) /\ In x (referencias order (snd e)).
Proof.
  intros H. rewrite <- tally_keys_read_files. apply run_index in H.
  split; apply Permutation_in; [assumption | now symmetry].
Qed.

Lemma run_index_NoDup dir m : run order dir = Ok m -> NoDup (index m).
Proof.
  intros H. apply run_index in H. symmetry in H.
  eapply Permutation_NoDup; [exact H | apply tally_keys_NoDup_read_files].
Qed.

Lemma run_columns_In dir m c :
  run order dir = Ok m ->
  In c (columns m) <-> exists e, In e (glob_rq_txt dir) /\ file_key (fst e) = c.
Proof.
  intros H. rewrite <- (por_arquivo_keys order). apply run_columns in H.
  split; apply Permutation_in; [assumption | now symmetry].
Qed.

Lemma run_columns_NoDup dir m : run order dir = Ok m -> NoDup (columns m).
Proof.
  intros H. apply run_columns in H. symmetry in H.
  eapply Permutation_NoDup; [exact H | apply por_arquivo_keys_NoDup].
Qed.

(** Every cell of the frame, from the dictionary of step 2. *)
Lemma run_cell dir m r c :
  run order dir = Ok m -> In r (index m) -> In c (columns m) ->
  at_get m r c =
  Some (match dict_get c (fst (read_files order (glob_rq_txt dir))) with
        | Some refs => if mem r refs then 1 else 0
        | None => 0
        end)%Z.
Proof.
  intros H Hr Hc. apply run_Ok in H as (items & _ & _ & _ & E).
  rewrite E at 1. rewrite at_get_fold_fill, at_get_fill by assumption. simpl.
  rewrite marked_dict_get by apply por_arquivo_keys_NoDup.
  destruct (dict_get c (fst (read_files order (glob_rq_txt dir)))) as [refs |];
    [| reflexivity].
  now destruct (mem r refs).
Qed.

(** Step 4 only assigns to cells whose labels the frame has. *)
Lemma fill_labels_present dir m c refs :
  run order dir = Ok m ->
  In (c, refs) (fst (read_files order (glob_rq_txt dir))) ->
  In c (columns m) /\ forall r, In r refs -> In r (index m).
Proof.
  intros H Hin.
  assert (Hc : In c (dict_keys (fst (read_files order (glob_rq_txt dir))))).
  { change c with (fst (c, refs)). now apply in_map. }
  split.
  - apply Permutation_in with (2 := Hc). symmetry. now apply run_columns.
  - intros r Hr. apply (run_index_In dir m r H).
    apply por_arquivo_keys in Hc. apply last_with_key_exists in Hc as [e He].
    pose proof He as (before & after & Eq & _ & _).
    exists e. split; [rewrite Eq; apply in_or_app; right; now left |].
    apply (por_arquivo_last order) in He.
    apply dict_In_get in Hin; [| apply por_arquivo_keys_NoDup]. congruence.
Qed.
(** One identifier whose last four characters do not parse makes the
    row sort, and with it the run, raise [ValueError]. *)
Lemma row_sort_raises dir e x :
  In e (glob_rq_txt dir) -> identifier_of (snd e) x ->
  Py.int (Py.slice_last 4 x) = Raise ValueError ->
  todas_referencias (snd (read_files order (glob_rq_txt dir))) = Raise ValueError /\
  run order dir = Raise ValueError.
Proof.
  intros He Hx Hint.
  assert (Hrows : todas_referencias (snd (read_files order (glob_rq_txt dir)))
                  = Raise ValueError).
  { assert (Hk : In x (dict_keys (snd (read_files order (glob_rq_txt dir))))).
    { apply tally_keys_read_files. exists e. split; [assumption |].
      now apply referencias_In. }
    apply in_map_iff in Hk as ([x' n] & E & Hin). simpl in E. subst x'.
    unfold todas_referencias.
    rewrite sorted_Raise with (a := (x, n)) (e := ValueError); trivial.
    - unfold row_key. simpl. now rewrite Hint.
    - intros a' e' _. apply row_key_Raise. }
  split; [assumption |]. unfold run. now rewrite Hrows.
Qed.
(** When the last four characters of every identifier parse, the row
    sort returns; when the keys parse as well, so does the run. *)
Lemma row_sort_returns dir :
  (forall e x, In e (glob_rq_txt dir) -> identifier_of (snd e) x ->
               exists n, Py.int (Py.slice_last 4 x) = Ok n) ->
  exists rows, todas_referencias (snd (read_files order (glob_rq_txt dir))) = Ok rows.
Proof.
  intros Hall. unfold todas_referencias.
  destruct (sorted_total tuple_ltb row_key (snd (read_files order (glob_rq_txt dir))))
    as [items Hitems].
  - intros [x n] Hin.
    assert (Hk : In x (dict_keys (snd (read_files order (glob_rq_txt dir))))).
    { change x with (fst (x, n)). now apply in_map. }
    apply tally_keys_read_files in Hk as (e & He & Hx). apply referencias_In in Hx.
    destruct (Hall e x He Hx) as [k Hk]. unfold row_key. simpl. rewrite Hk. simpl. eauto.
  - rewrite Hitems. simpl. eauto.
Qed.

Lemma run_returns dir :
  (forall e x, In e (glob_rq_txt dir) -> identifier_of (snd e) x ->
               exists n, Py.int (Py.slice_last 4 x) = Ok n) ->
  (forall e, In e (glob_rq_txt dir) -> exists n, column_key (file_key (fst e)) = Ok n) ->
  exists m, run order dir = Ok m.
Proof.
  intros Hrows Hcols. destruct (row_sort_returns dir Hrows) as [rows E].
  unfold run. rewrite E. simpl. unfold presence.
  destruct (sorted_total Z.ltb column_key
              (dict_keys (fst (read_files order (glob_rq_txt dir))))) as [cols Ec].
  - intros c Hc. apply por_arquivo_keys in Hc as (e & He & <-). now apply Hcols.
  - rewrite Ec. simpl. eauto.
Qed.
End Run.

(** ** Dependence on the iteration order *)

Lemma read_files_ext order order' arquivos :
  (forall e, In e arquivos -> referencias order (snd e) = referencias order' (snd e)) ->
  read_files order arquivos = read_files order' arquivos.
Proof.
  induction arquivos as [| e arquivos IH] using rev_ind; intros H.
  - reflexivity.
  - rewrite !read_files_snoc. rewrite IH.
    + unfold read_file. rewrite (H e); [reflexivity |]. apply in_or_app. right. now left.
    + intros e' He'. apply H. apply in_or_app. now left.
Qed.

Lemma run_ext order order' dir :
  (forall e, In e (glob_rq_txt dir) -> referencias order (snd e) = referencias order' (snd e)) ->
  run order dir = run order' dir.
Proof.
  intros H. unfold run. now rewrite (read_files_ext order order' _ H).
Qed.

(** A set of one element has one iteration order, a set of two has two. *)
Lemma set_iter_one order a : set_iter order [a] = [a].
Proof.
  pose proof (set_iter_perm order [a]) as P.
  rewrite nodup_fixed_point in P by (repeat constructor; simpl; tauto).
  now apply Permutation_length_1_inv in P.
Qed.

Lemma set_iter_two order a b :
  a <> b -> set_iter order [a; b] = [a; b] \/ set_iter order [a; b] = [b; a].
Proof.
  intros N. pose proof (set_iter_perm order [a; b]) as P.
  rewrite nodup_fixed_point in P.
  - now apply Permutation_length_2_inv in P.
  - repeat constructor; simpl; intuition congruence.
Qed.

(** ** File names *)

Lemma prefix_empty s : prefix EmptyString s = true.
Proof. now destruct s. Qed.

Lemma append_empty_r s : (s ++ EmptyString)%string = s.
Proof. induction s as [| c s IH]; simpl; [reflexivity | now rewrite IH]. Qed.

Lemma append_snoc s c t : ((s ++ String c EmptyString) ++ t)%string = (s ++ String c t)%string.
Proof. induction s as [| c' s IH]; simpl; [reflexivity | now rewrite IH]. Qed.

Lemma split_aux_nonempty sep skip cur s : Py.split_aux sep skip cur s <> [].
Proof.
  revert skip cur. induction s as [| c s IH]; intros skip cur; simpl.
  - discriminate.
  - destruct skip; [| apply IH].
    destruct (match sep with
              | EmptyString => true
              | String a s1' => if ascii_dec a c then prefix s1' s else false
              end); [discriminate | apply IH].
Qed.

Lemma split_dot_hd cur s :
  hd EmptyString (Py.split_aux "." 0 cur s) = (cur ++ before_dot s)%string.
Proof.
  revert cur. induction s as [| c s IH]; intros cur.
  - simpl. now rewrite append_empty_r.
  - cbn [Py.split_aux before_dot prefix].
    destruct (ascii_dec "."%char c) as [E | N].
    + subst c. rewrite prefix_empty. simpl. now rewrite append_empty_r.
    + assert (Hc : Ascii.eqb c "."%char = false).
      { apply Ascii.eqb_neq. congruence. }
      now rewrite Hc, IH, append_snoc.
Qed.

Lemma file_key_before_dot name : file_key name = Py.upper (before_dot name).
Proof. unfold file_key, Py.split. now rewrite split_dot_hd. Qed.

Lemma substring_all s : substring 0 (String.length s) s = s.
Proof. induction s as [| c s IH]; simpl; [reflexivity | now rewrite IH]. Qed.

Lemma substring_cut k s :
  k <= String.length s ->
  s = (substring 0 k s ++ substring k (String.length s - k) s)%string.
Proof.
  revert s. induction k as [| k IH]; intros s Hk.
  - rewrite Nat.sub_0_r, substring_all. now destruct s.
  - destruct s as [| c s]; simpl in Hk; [lia |].
    simpl. f_equal. apply IH. lia.
Qed.

Lemma fnmatch_extension name :
  fnmatch_rq_txt name = true -> name = (strip_extension name ++ ".txt")%string.
Proof.
  unfold fnmatch_rq_txt, strip_extension, Py.slice_last. intros H.
  apply andb_prop in H as [H E]. apply andb_prop in H as [_ L].
  apply Nat.leb_le in L. apply String.eqb_eq in E.
  rewrite (substring_cut (String.length name - 4) name) at 1 by lia.
  replace (String.length name - (String.length name - 4)) with 4 by lia.
  now rewrite E.
Qed.

Lemma before_dot_extension a : no_dot a = true -> before_dot (a ++ ".txt") = a.
Proof.
  unfold no_dot. induction a as [| c a IH]; simpl; intros H; [reflexivity |].
  apply andb_prop in H as [Hc H]. apply negb_true_iff in Hc. rewrite Hc.
  now rewrite IH.
Qed.

Lemma upper_append a b : Py.upper (a ++ b) = (Py.upper a ++ Py.upper b)%string.
Proof. induction a as [| c a IH]; simpl; [reflexivity | now rewrite IH]. Qed.

Lemma file_frequency_app order l1 l2 x :
  file_frequency order (l1 ++ l2) x =
  (file_frequency order l1 x + file_frequency order l2 x)%Z.
Proof. unfold file_frequency. now rewrite filter_app, length_app, Nat2Z.inj_add. Qed.

Lemma file_frequency_cons order e l x :
  file_frequency order (e :: l) x =
  ((if mem x (referencias order (snd e)) then 1 else 0) + file_frequency order l x)%Z.
Proof.
  unfold file_frequency. cbn [filter].
  destruct (mem x (referencias order (snd e))); cbn [length];
    [rewrite Nat2Z.inj_succ; lia | lia].
Qed.

(** * The claims *)

(** ** Rows *)

(** C2. When the run builds a matrix, its rows are exactly the identifiers
    of the discovered files: every non-blank stripped line of at least one
    file is a row exactly once, no identifier is a row twice, and every
    row is an identifier of some file. *)
Theorem rows_are_the_identifiers (order : SetOrder) (dir : list entry) (m : DataFrame) :
  run order dir = Ok m ->
  NoDup (index m) /\
  (forall x, (exists e, In e (glob_rq_txt dir) /\ identifier_of (snd e) x) ->
             count_occ string_dec (index m) x = 1) /\
  (forall x, In x (index m) ->
             exists e, In e (glob_rq_txt dir) /\ identifier_of (snd e) x).
Proof.
  intros H. pose proof (run_index_NoDup order dir m H) as ND.
  split; [assumption |]. split.
  - intros x (e & He & Hx). apply NoDup_count_occ'; [assumption |].
    apply (run_index_In order dir m x H). exists e. split; [assumption |].
    now apply referencias_In.
  - intros x Hx. apply (run_index_In order dir m x H) in Hx as (e & He & Hx).
    exists e. split; [assumption |]. now apply referencias_In in Hx.
Qed.

Lemma rows_are_the_identifiers_witness :
  run kept_order sample_dir = Ok sample_frame /\ NoDup (index sample_frame).
Proof.
  split; [reflexivity |].
  exact (proj1 (rows_are_the_identifiers kept_order sample_dir sample_frame eq_refl)).
Defined.

(** C3. The rows are in ascending order of the pair (number of files that
    contain the identifier, integer of the identifier's last four
    characters): each row's pair is at most the next row's, pairs compared
    lexicographically. *)
Theorem rows_sorted (order : SetOrder) (dir : list entry) (m : DataFrame) :
  run order dir = Ok m ->
  Sorted (row_order order (glob_rq_txt dir)) (index m).
Proof.
  intros H. apply run_Ok in H as (items & Hitems & -> & _).
  apply (sorted_Ok tuple_ltb row_key tuple_ltb_asym) in Hitems as [P S].
  apply Sorted_map_strengthen
    with (P := fun x => snd x = file_frequency order (glob_rq_txt dir) (fst x))
         (R := ascending tuple_ltb row_key); [| | assumption].
  - intros a b Pa Pb (ka & kb & Ha & Hb & Hlt).
    apply row_key_Ok in Ha as (na & Ha & ->). apply row_key_Ok in Hb as (nb & Hb & ->).
    exists na, nb. repeat split; try assumption.
    rewrite <- Pa, <- Pb. now apply tuple_ltb_false.
  - apply Forall_forall. intros [x n] Hx. simpl.
    apply Permutation_in with (1 := P) in Hx.
    apply dict_In_get in Hx; [| apply tally_keys_NoDup_read_files].
    rewrite tally_read_files in Hx.
    destruct (file_frequency order (glob_rq_txt dir) x =? 0)%Z; congruence.
Qed.

Lemma rows_sorted_witness :
  run kept_order sample_dir = Ok sample_frame /\
  Sorted (row_order kept_order (glob_rq_txt sample_dir)) (index sample_frame).
Proof.
  split; [reflexivity |].
  exact (rows_sorted kept_order sample_dir sample_frame eq_refl).
Defined.

(** ** Parsing and aggregation *)


Lemma lstrip_by_head p s c t : Py.lstrip_by p s = String c t -> p c = false.
Proof.
  induction s as [| c0 s IH]; simpl; [discriminate |].
  destruct (p c0) eqn:E; [assumption |]. congruence.
Qed.











(** ** Failures *)

(** C7. If some identifier of a discovered file has last four characters
    that [int] cannot parse, the row sort raises [ValueError] and so does
    the run; if the last four characters of every identifier parse, the
    row sort returns. *)
Theorem row_sort_failure (order : SetOrder) (dir : list entry) :
  ((exists e x, In e (glob_rq_txt dir) /\ identifier_of (snd e) x /\
                Py.int (Py.slice_last 4 x) = Raise ValueError) ->
   todas_referencias (snd (read_files order (glob_rq_txt dir))) = Raise ValueError /\
   run order dir = Raise ValueError) /\
  ((forall e x, In e (glob_rq_txt dir) -> identifier_of (snd e) x ->
                exists n, Py.int (Py.slice_last 4 x) = Ok n) ->
   exists rows, todas_referencias (snd (read_files order (glob_rq_txt dir))) = Ok rows).
Proof.
  split.
  - intros (e & x & He & Hx & Hint). now apply row_sort_raises with (e := e) (x := x).
  - apply row_sort_returns.
Qed.

Lemma row_sort_failure_witness :
  run kept_order spec_example = Raise ValueError /\
  exists rows, todas_referencias (snd (read_files kept_order (glob_rq_txt sample_dir))) = Ok rows.
Proof.
  split.
  - refine (proj2 (proj1 (row_sort_failure kept_order spec_example) _)).
    exists ("rq1.txt", text ["A1"; "A2"]), "A1". split; [left; reflexivity |]. split.
    + exists (String.append "A1" LFs). split; [left; reflexivity |].
      split; [reflexivity | discriminate].
    + reflexivity.
  - exists (index sample_frame). reflexivity.
Defined.

(** C9. When no name of the directory matches [rq*.txt], the run does not
    raise: it returns the frame with no row and no column. *)
Theorem no_files_empty_matrix (order : SetOrder) (dir : list entry) :
  (forall e, In e dir -> fnmatch_rq_txt (fst e) = false) ->
  glob_rq_txt dir = [] /\ run order dir = Ok empty_frame.
Proof.
  intros H.
  assert (E : glob_rq_txt dir = []).
  { unfold glob_rq_txt. induction dir as [| e dir IH]; simpl; [reflexivity |].
    rewrite (H e (or_introl eq_refl)). apply IH. intros e' He'. apply H. now right. }
  split; [assumption |]. unfold run. rewrite E. reflexivity.
Qed.

Lemma no_files_empty_matrix_witness :
  run kept_order [("notes.txt", text ["A0001"]); ("RQ1.txt", text ["A0002"])] = Ok empty_frame.
Proof.
  refine (proj2 (no_files_empty_matrix kept_order _ _)).
  intros e [<- | [<- | []]]; reflexivity.
Defined.

(** ** Cells *)

(** C1 (as amended). Every column of the matrix is decided by the last
    discovered file that derives the column's key: in that column a cell
    is 1 when the row's identifier is in that file's set and 0 otherwise,
    and the set is read back exactly from the column. *)
Theorem presence_cells (order : SetOrder) (dir : list entry) (m : DataFrame) :
  run order dir = Ok m ->
  forall c, In c (columns m) ->
  exists e,
    last_with_key (glob_rq_txt dir) c e /\
    (forall r, In r (index m) ->
               at_get m r c = Some (if mem r (referencias order (snd e)) then 1 else 0)%Z) /\
    (forall x, In x (referencias order (snd e)) <-> In x (column_set m c)).
Proof.
  intros H c Hc.
  pose proof (proj1 (run_columns_In order dir m c H) Hc) as Hfile.
  apply last_with_key_exists in Hfile as [e He]. exists e.
  pose proof (por_arquivo_last order _ _ _ He) as Hget.
  assert (Hcell : forall r, In r (index m) ->
            at_get m r c = Some (if mem r (referencias order (snd e)) then 1 else 0)%Z).
  { intros r Hr. rewrite (run_cell order dir m r c H Hr Hc), Hget. reflexivity. }
  split; [assumption |]. split; [assumption |].
  intros x. unfold column_set. rewrite filter_In. split.
  - intros Hx.
    assert (Hr : In x (index m)).
    { apply (run_index_In order dir m x H). exists e. split; [| assumption].
      destruct He as (before & after & -> & _). apply in_or_app. right. now left. }
    split; [assumption |]. rewrite (Hcell x Hr).
    apply mem_In in Hx. now rewrite Hx.
  - intros [Hr Hone]. rewrite (Hcell x Hr) in Hone. apply mem_In.
    now destruct (mem x (referencias order (snd e))).
Qed.

Lemma presence_cells_witness :
  run kept_order sample_dir = Ok sample_frame /\
  exists e, last_with_key (glob_rq_txt sample_dir) "RQ10" e /\
            forall x, In x (referencias kept_order (snd e)) <-> In x (column_set sample_frame "RQ10").
Proof.
  split; [reflexivity |].
  destruct (presence_cells kept_order sample_dir sample_frame eq_refl "RQ10")
    as (e & He & _ & Hset).
  - right; right; left; reflexivity.
  - exists e. split; assumption.
Defined.

(** C1, as first stated, fails when two discovered names derive one key:
    "A0001" is in the set of [rq1.txt], whose key is the column "RQ1", yet
    its cell in that column is 0 and the column reads back as the set of
    [rq1.v2.txt]. *)
Lemma presence_cells_collision :
  run kept_order collision_dir = Ok collision_frame /\
  In ("rq1.txt", text ["A0001"]) (glob_rq_txt collision_dir) /\
  file_key "rq1.txt" = "RQ1" /\
  referencias kept_order (text ["A0001"]) = ["A0001"] /\
  at_get collision_frame "A0001" "RQ1" = Some 0%Z /\
  column_set collision_frame "RQ1" = ["B0002"].
Proof. repeat split; try reflexivity. left; reflexivity. Qed.

(** ** Columns *)

Lemma column_order_trans a b c : column_order a b -> column_order b c -> column_order a c.
Proof.
  intros (x & y & Ha & Hb & Hxy) (y' & z & Hb' & Hc & Hyz).
  exists x, z. repeat split; try assumption.
  rewrite Hb in Hb'. injection Hb' as <-. lia.
Qed.

Lemma column_order_antisym a b :
  column_order a b -> column_order b a -> column_key a = column_key b.
Proof.
  intros (x & y & Ha & Hb & Hxy) (y' & x' & Hb' & Ha' & Hyx).
  rewrite Ha in Ha'. rewrite Hb in Hb'. injection Ha' as <-. injection Hb' as <-.
  rewrite Ha, Hb. f_equal. lia.
Qed.

(** C4 (as amended). The columns of the matrix are the keys of the
    discovered files, each once, in ascending order of the integer that
    follows "RQ" in the key; and when no two columns have the same integer,
    a run over the same directory listed in any other order yields the same
    columns in the same order. *)
Theorem columns_sorted (order : SetOrder) (dir : list entry) (m : DataFrame) :
  run order dir = Ok m ->
  NoDup (columns m) /\
  (forall c, In c (columns m) <-> exists e, In e (glob_rq_txt dir) /\ file_key (fst e) = c) /\
  Sorted column_order (columns m) /\
  (forall order' dir' m',
      Permutation dir dir' -> run order' dir' = Ok m' ->
      (forall a b, In a (columns m) -> In b (columns m) ->
                   column_key a = column_key b -> a = b) ->
      columns m' = columns m).
Proof.
  intros H.
  assert (S : forall o d f, run o d = Ok f -> Sorted column_order (columns f)).
  { intros o d f Hf. apply run_Ok in Hf as (_ & _ & _ & Hcols & _).
    apply (sorted_Ok Z.ltb column_key Z_ltb_asym) in Hcols as [_ S].
    rewrite <- (map_id (columns f)).
    apply Sorted_map_strengthen with (P := fun _ => True)
                                     (R := ascending Z.ltb column_key);
      [| apply Forall_forall; trivial | assumption].
    intros a b _ _ (x & y & Ha & Hb & Hlt). exists x, y.
    apply Z.ltb_ge in Hlt. auto. }
  split; [now apply run_columns_NoDup in H |].
  split; [intros c; exact (run_columns_In order dir m c H) |].
  split; [now apply S in H |].
  intros order' dir' m' P H' Hinj. symmetry.
  apply Sorted_perm_unique with (le := column_order).
  - exact column_order_trans.
  - intros a b Ha Hb Hab Hba. apply Hinj; try assumption.
    now apply column_order_antisym.
  - now apply S in H.
  - now apply S in H'.
  - apply NoDup_Permutation.
    + now apply run_columns_NoDup in H.
    + now apply run_columns_NoDup in H'.
    + intros c. rewrite (run_columns_In order dir m c H).
      rewrite (run_columns_In order' dir' m' c H').
      unfold glob_rq_txt.
      split; intros (e & He & E); exists e; (split; [| assumption]);
        apply filter_In in He as [He M]; apply filter_In; (split; [| assumption]).
      * now apply Permutation_in with (1 := P).
      * apply Permutation_in with (2 := He). now symmetry.
  - now apply run_columns_NoDup in H.
Qed.

Lemma columns_sorted_witness :
  run kept_order sample_dir = Ok sample_frame /\
  run reversed_order (rev sample_dir) = Ok sample_frame /\
  Sorted column_order (columns sample_frame) /\
  columns sample_frame = columns sample_frame.
Proof.
  split; [reflexivity |]. split; [reflexivity |].
  destruct (columns_sorted kept_order sample_dir sample_frame eq_refl)
    as (_ & _ & S & Hany).
  split; [exact S |].
  apply (Hany reversed_order (rev sample_dir) sample_frame).
  - apply Permutation_rev.
  - reflexivity.
  - intros a b [<- | [<- | [<- | []]]] [<- | [<- | [<- | []]]] E;
      solve [reflexivity | vm_compute in E; discriminate E].
Defined.

(** C4, as first stated, fails when two keys carry the same integer: the
    directory that holds [rq1.txt] and [rq01.txt] gives the columns
    RQ1, RQ01 when it lists [rq1.txt] first and RQ01, RQ1 when it lists
    [rq01.txt] first. *)
Lemma columns_follow_listing_on_ties :
  Permutation tie_dir tie_dir_swapped /\
  run kept_order tie_dir = Ok tie_frame /\
  run kept_order tie_dir_swapped = Ok tie_frame_swapped /\
  columns tie_frame = ["RQ1"; "RQ01"] /\
  columns tie_frame_swapped = ["RQ01"; "RQ1"] /\
  column_key "RQ1" = Ok 1%Z /\ column_key "RQ01" = Ok 1%Z.
Proof. repeat split; try reflexivity. apply perm_swap. Qed.

(** ** The example of the specification *)

Lemma referencias_set order contents l :
  map Py.strip
    (filter (fun linha => negb (String.eqb (Py.strip linha) EmptyString))
       (Py.readlines contents)) = l ->
  referencias order contents = set_iter order l.
Proof. unfold referencias. now intros ->. Qed.

(** C6 (as amended). On [rq1.txt] = "A1\nA2\n" and [rq2.txt] = "A2\n" the
    row sort raises [ValueError], "A1" not being an integer.  With the
    identifiers written A0001 and A0002 the run returns the matrix of rows
    A0001, A0002 and columns RQ1, RQ2 in which A0001 has (1, 0) and A0002
    has (1, 1); A0001 is in one file and A0002 in two, whatever the
    iteration order of the sets. *)
Theorem specification_example (order : SetOrder) :
  run order spec_example = Raise ValueError /\
  run order padded_example = Ok padded_frame /\
  file_frequency order (glob_rq_txt padded_example) "A0001" = 1%Z /\
  file_frequency order (glob_rq_txt padded_example) "A0002" = 2%Z.
Proof.
  assert (E2 : referencias order (text ["A0002"]) = ["A0002"]).
  { rewrite referencias_set with (l := ["A0002"]) by reflexivity. apply set_iter_one. }
  assert (E1 : referencias order (text ["A0001"; "A0002"]) = ["A0001"; "A0002"] \/
               referencias order (text ["A0001"; "A0002"]) = ["A0002"; "A0001"]).
  { rewrite referencias_set with (l := ["A0001"; "A0002"]) by reflexivity.
    apply set_iter_two. discriminate. }
  split; [| split].
  - apply row_sort_raises with (e := ("rq1.txt", text ["A1"; "A2"])) (x := "A1").
    + left; reflexivity.
    + exists (String.append "A1" LFs). split; [left; reflexivity |].
      split; [reflexivity | discriminate].
    + reflexivity.
  - destruct E1 as [E1 | E1].
    + rewrite run_ext with (order' := kept_order); [reflexivity |].
      intros e [<- | [<- | []]]; cbn [snd]; [rewrite E1 | rewrite E2]; reflexivity.
    + rewrite run_ext with (order' := reversed_order); [reflexivity |].
      intros e [<- | [<- | []]]; cbn [snd]; [rewrite E1 | rewrite E2]; reflexivity.
  - replace (glob_rq_txt padded_example) with padded_example by reflexivity.
    unfold padded_example. rewrite !file_frequency_cons. cbn [snd]. rewrite E2.
    destruct E1 as [-> | ->]; split; reflexivity.
Qed.

(** C6, as first stated, fails: on the input of the example no iteration
    order of the sets lets the run return a matrix. *)
Lemma specification_example_raises :
  ~ exists order m, run order spec_example = Ok m.
Proof.
  intros (order & m & H).
  assert (R : run order spec_example = Raise ValueError).
  { apply row_sort_raises with (e := ("rq1.txt", text ["A1"; "A2"])) (x := "A1").
    - left; reflexivity.
    - exists (String.append "A1" LFs). split; [left; reflexivity |].
      split; [reflexivity | discriminate].
    - reflexivity. }
  congruence.
Qed.

(** ** Keys *)

(** C8 (as amended). The key of a file is the part of its name before the
    first dot, in upper case.  For a discovered name whose only dot is the
    one of ".txt" this is the name in upper case without its extension, and
    two such names that differ by more than letter case have distinct
    keys. *)
Theorem file_key_of_name (name : string) :
  file_key name = Py.upper (before_dot name) /\
  (fnmatch_rq_txt name = true -> no_dot (strip_extension name) = true ->
   file_key name = spec_key name /\
   forall name',
     fnmatch_rq_txt name' = true -> no_dot (strip_extension name') = true ->
     Py.upper name <> Py.upper name' -> file_key name <> file_key name').
Proof.
  split; [apply file_key_before_dot |].
  assert (K : forall n, fnmatch_rq_txt n = true -> no_dot (strip_extension n) = true ->
                        file_key n = spec_key n).
  { intros n M D. rewrite file_key_before_dot. unfold spec_key.
    rewrite (fnmatch_extension n M) at 1. now rewrite before_dot_extension. }
  intros M D. split; [now apply K |].
  intros name' M' D' N E. apply N.
  rewrite (K name M D), (K name' M' D') in E. unfold spec_key in E.
  rewrite (fnmatch_extension name M), (fnmatch_extension name' M').
  now rewrite !upper_append, E.
Qed.

Lemma file_key_of_name_witness :
  file_key "rq12.txt" = "RQ12" /\ file_key "rq12.txt" <> file_key "rq21.txt".
Proof.
  destruct (file_key_of_name "rq12.txt") as [_ H].
  destruct (H eq_refl eq_refl) as [E N]. split.
  - exact E.
  - apply (N "rq21.txt" eq_refl eq_refl). discriminate.
Defined.

(** C8, as first stated, fails on a name with a second dot, whose key stops
    at the first dot, and on names that differ in letter case only:
    [rq1.v2.txt] has the key of [rq1.txt], not RQ1.V2, and [rq1rqa.txt] and
    [rq1rqA.txt] share one key. *)
Lemma file_key_stops_at_first_dot :
  fnmatch_rq_txt "rq1.v2.txt" = true /\
  fnmatch_rq_txt "rq1.txt" = true /\
  file_key "rq1.v2.txt" = "RQ1" /\
  spec_key "rq1.v2.txt" = "RQ1.V2" /\
  strip_extension "rq1.v2.txt" <> strip_extension "rq1.txt" /\
  file_key "rq1.v2.txt" = file_key "rq1.txt" /\
  fnmatch_rq_txt "rq1rqa.txt" = true /\
  fnmatch_rq_txt "rq1rqA.txt" = true /\
  file_key "rq1rqa.txt" = file_key "rq1rqA.txt".
Proof. repeat split; try reflexivity. discriminate. Qed.

(** C10. When two discovered names derive the same key and no later name
    does, the dictionary of step 2 holds under that key the set of the
    later file alone, while the tally of an identifier counts the earlier
    file and the later file like every other; and there is a directory
    where, for that reason, an identifier of the earlier file is a row of
    zeros. *)
Theorem key_collision (order : SetOrder) :
  (forall dir before e1 between e2 after,
      glob_rq_txt dir = before ++ e1 :: between ++ e2 :: after ->
      file_key (fst e1) = file_key (fst e2) ->
      (forall e, In e after -> file_key (fst e) <> file_key (fst e2)) ->
      let st := read_files order (glob_rq_txt dir) in
      dict_get (file_key (fst e1)) (fst st) = Some (referencias order (snd e2)) /\
      forall x,
        let n := (file_frequency order before x
                  + (if mem x (referencias order (snd e1)) then 1 else 0)
                  + file_frequency order between x
                  + (if mem x (referencias order (snd e2)) then 1 else 0)
                  + file_frequency order after x)%Z in
        dict_get x (snd st) = if (n =? 0)%Z then None else Some n) /\
  (exists dir e1 e2 m x,
      glob_rq_txt dir = [e1; e2] /\
      file_key (fst e1) = file_key (fst e2) /\
      run order dir = Ok m /\
      In x (referencias order (snd e1)) /\
      ~ In x (referencias order (snd e2)) /\
      In x (index m) /\
      forall c, In c (columns m) -> at_get m x c = Some 0%Z).
Proof.
  split.
  - intros dir before e1 between e2 after G K Hafter st. subst st. split.
    + rewrite K. apply por_arquivo_last. exists (before ++ e1 :: between), after.
      split; [rewrite G; now rewrite <- app_assoc | auto].
    + intros x n. subst n. rewrite tally_read_files, G.
      rewrite file_frequency_app, file_frequency_cons, file_frequency_app,
        file_frequency_cons.
      rewrite !Z.add_assoc. reflexivity.
  - assert (E1 : referencias order (text ["A0001"]) = ["A0001"]).
    { rewrite referencias_set with (l := ["A0001"]) by reflexivity. apply set_iter_one. }
    assert (E2 : referencias order (text ["B0002"]) = ["B0002"]).
    { rewrite referencias_set with (l := ["B0002"]) by reflexivity. apply set_iter_one. }
    exists collision_dir, ("rq1.txt", text ["A0001"]), ("rq1.v2.txt", text ["B0002"]),
      collision_frame, "A0001".
    split; [reflexivity |]. split; [reflexivity |]. split.
    { rewrite run_ext with (order' := kept_order); [reflexivity |].
      intros e [<- | [<- | []]]; cbn [snd]; [rewrite E1 | rewrite E2]; reflexivity. }
    cbn [snd]. rewrite E1, E2. split; [now left |].
    split; [intros [H | []]; discriminate H |].
    split; [now left |].
    intros c [<- | []]. reflexivity.
Qed.

Lemma key_collision_witness :
  dict_get "RQ1" (fst (read_files kept_order (glob_rq_txt collision_dir))) = Some ["B0002"] /\
  dict_get "A0001" (snd (read_files kept_order (glob_rq_txt collision_dir))) = Some 1%Z.
Proof.
  destruct (proj1 (key_collision kept_order) collision_dir
              [] ("rq1.txt", text ["A0001"]) [] ("rq1.v2.txt", text ["B0002"]) []
              eq_refl eq_refl) as [Hset Htally].
  - intros e [].
  - split; [exact Hset | exact (Htally "A0001")].
Defined.

(** * Further properties *)

(** ** Lists *)

Lemma Permutation_filter_pres {A : Type} (f : A -> bool) (l l' : list A) :
  Permutation l l' -> Permutation (filter f l) (filter f l').
Proof.
  induction 1 as [| x l l' P IH | x y l | l l' l'' P IH P' IH']; simpl.
  - constructor.
  - destruct (f x); [now constructor | assumption].
  - destruct (f x), (f y); try apply Permutation_refl. apply perm_swap.
  - now transitivity (filter f l').
Qed.

Lemma first_seen_snoc l x :
  first_seen (l ++ [x]) = if mem x (first_seen l) then first_seen l else first_seen l ++ [x].
Proof. unfold first_seen. now rewrite fold_left_app. Qed.

Lemma first_seen_In l x : In x (first_seen l) <-> In x l.
Proof.
  induction l as [| y l IH] using rev_ind.
  - simpl. tauto.
  - rewrite first_seen_snoc, in_app_iff. simpl.
    destruct (mem y (first_seen l)) eqn:M.
    + apply mem_In in M. rewrite IH. split; [tauto |].
      intros [H | [<- | []]]; [assumption |]. now apply IH.
    + rewrite in_app_iff. simpl. rewrite IH. tauto.
Qed.

Lemma first_seen_NoDup l : NoDup (first_seen l).
Proof.
  induction l as [| y l IH] using rev_ind.
  - constructor.
  - rewrite first_seen_snoc. destruct (mem y (first_seen l)) eqn:M; [assumption |].
    apply mem_false in M. apply NoDup_app; [assumption | repeat constructor; simpl; tauto |].
    intros x Hx [<- | []]. contradiction.
Qed.

(** Appending items that are new and distinct appends them to the order
    of first occurrence. *)
Lemma first_seen_app l l' :
  NoDup l' ->
  first_seen (l ++ l') =
  first_seen l ++ filter (fun x => negb (mem x (first_seen l))) l'.
Proof.
  induction l' as [| x l' IH] using rev_ind; intros ND.
  - rewrite app_nil_r. simpl. now rewrite app_nil_r.
  - apply NoDup_remove in ND as [ND Hx]. rewrite app_nil_r in ND, Hx.
    rewrite app_assoc, first_seen_snoc, IH by assumption.
    rewrite filter_app. simpl.
    destruct (mem x (first_seen l)) eqn:M; simpl.
    + rewrite app_nil_r.
      assert (M' : mem x (first_seen l ++ filter (fun y => negb (mem y (first_seen l))) l')
                   = true).
      { apply mem_In. apply in_or_app. left. now apply mem_In. }
      now rewrite M'.
    + assert (M' : mem x (first_seen l ++ filter (fun y => negb (mem y (first_seen l))) l')
                   = false).
      { apply mem_false. intros H. apply in_app_or in H as [H | H].
        - apply mem_false in M. contradiction.
        - apply filter_In in H as [H _]. contradiction. }
      rewrite M'. now rewrite app_assoc.
Qed.

(** ** Dictionaries, continued *)

Lemma dict_keys_tally refs (d : dict Z) :
  NoDup refs ->
  dict_keys (tally refs d) =
  dict_keys d ++ filter (fun x => negb (mem x (dict_keys d))) refs.
Proof.
  unfold tally. revert d. induction refs as [| r refs IH]; simpl; intros d ND.
  - now rewrite app_nil_r.
  - inversion ND as [| ? ? Hnot ND']; subst. rewrite IH by assumption.
    rewrite dict_keys_set. destruct (mem r (dict_keys d)) eqn:M; simpl.
    + reflexivity.
    + rewrite <- app_assoc. simpl. f_equal. f_equal.
      apply filter_ext_in. intros x Hx.
      assert (N : mem x [r] = false).
      { apply mem_false. intros [E | []]. subst. contradiction. }
      f_equal. apply eq_true_iff_eq. rewrite !mem_In, in_app_iff.
      apply mem_false in N. tauto.
Qed.

Lemma by_label_None {V : Type} (l : string) (labels : list string) (vs : list V) :
  ~ In l labels -> by_label l labels vs = None.
Proof.
  unfold by_label. revert vs. induction labels as [| l1 labels IH]; intros vs H.
  - reflexivity.
  - destruct vs as [| v vs]; [reflexivity |]. simpl.
    destruct (String.eqb_spec l1 l) as [E | N].
    + exfalso. apply H. now left.
    + apply IH. intros Hin. apply H. now right.
Qed.

(** ** Stability of [sorted] *)

Section Stable.
Context {A K : Type}.
Variables (ltb eqb : K -> K -> bool).
Hypothesis eqb_eq : forall a b, eqb a b = true -> a = b.
Hypothesis ltb_irrefl : forall a, ltb a a = false.

Lemma insert_filter k (x : K * A) l :
  filter (fun y => eqb k (fst y)) (Py.insert ltb x l) =
  filter (fun y => eqb k (fst y)) (x :: l).
Proof.
  induction l as [| y l IH]; [reflexivity |].
  cbn [Py.insert]. destruct (ltb (fst y) (fst x)) eqn:L; [| reflexivity].
  cbn [filter] in *. rewrite IH.
  destruct (eqb k (fst y)) eqn:Ey, (eqb k (fst x)) eqn:Ex; try reflexivity.
  apply eqb_eq in Ey, Ex. rewrite <- Ey, <- Ex, ltb_irrefl in L. discriminate.
Qed.

Lemma stable_sort_filter k (l : list (K * A)) :
  filter (fun y => eqb k (fst y)) (Py.stable_sort ltb l) =
  filter (fun y => eqb k (fst y)) l.
Proof.
  induction l as [| x l IH]; [reflexivity |].
  cbn [Py.stable_sort fold_right]. rewrite insert_filter. cbn [filter].
  fold (Py.stable_sort ltb l). now rewrite IH.
Qed.
End Stable.

Lemma tuple_ltb_irrefl a : tuple_ltb a a = false.
Proof.
  unfold tuple_ltb. rewrite Z.ltb_irrefl, Z.ltb_irrefl, andb_false_r. reflexivity.
Qed.

Lemma sorted_inv {A K : Type} (ltb : K -> K -> bool) (key : A -> result K) l r :
  Py.sorted ltb key l = Ok r ->
  exists kl, map snd kl = l /\ Forall (keyed key) kl /\ r = map snd (Py.stable_sort ltb kl).
Proof.
  unfold Py.sorted. intros H. apply bind_Ok in H as (kl & Hkl & H).
  injection H as <-. apply decorate_Ok in Hkl as [E F]. eauto.
Qed.

Lemma sorted_Raise_inv {A K : Type} (ltb : K -> K -> bool) (key : A -> result K) l e :
  Py.sorted ltb key l = Raise e -> exists a, In a l /\ key a = Raise e.
Proof.
  unfold Py.sorted. induction l as [| a l IH]; simpl; [discriminate |].
  destruct (key a) as [k | e'] eqn:Ka; simpl.
  - destruct (Py.decorate key l) as [kl | e'] eqn:D; simpl; [discriminate |].
    intros [= <-]. destruct IH as (a' & Hin & Ha'); [reflexivity |].
    exists a'. split; [now right | assumption].
  - intros [= <-]. exists a. split; [now left | assumption].
Qed.

(** ** The order of the keys of the two dictionaries *)

Lemma tally_keys_first_seen order arquivos :
  dict_keys (snd (read_files order arquivos)) =
  first_seen (concat (map (fun e => referencias order (snd e)) arquivos)).
Proof.
  induction arquivos as [| e arquivos IH] using rev_ind.
  - reflexivity.
  - rewrite read_files_snoc. unfold read_file. cbn [snd].
    rewrite dict_keys_tally by apply referencias_NoDup.
    rewrite map_app, concat_app. cbn [map concat]. rewrite app_nil_r.
    rewrite first_seen_app by apply referencias_NoDup. now rewrite IH.
Qed.

Lemma por_arquivo_keys_first_seen order arquivos :
  dict_keys (fst (read_files order arquivos)) = first_seen (derived_keys arquivos).
Proof.
  induction arquivos as [| e arquivos IH] using rev_ind.
  - reflexivity.
  - rewrite read_files_snoc. unfold read_file. cbn [fst].
    rewrite dict_keys_set. unfold derived_keys in *. rewrite map_app. cbn [map].
    now rewrite first_seen_snoc, IH.
Qed.

(** X1. Ties in the row sort are broken by the order in which the loop of
    step 2 first met the identifiers: the tally lists the identifiers in
    the order of their first occurrence over the files as read (each file's
    set in its iteration order), and among the rows of the matrix those
    with one same sort key stand in that order. *)
Theorem rows_keep_first_seen_order (order : SetOrder) (dir : list entry) (m : DataFrame) :
  run order dir = Ok m ->
  let seen := first_seen (concat (map (fun e => referencias order (snd e))
                                      (glob_rq_txt dir))) in
  dict_keys (snd (read_files order (glob_rq_txt dir))) = seen /\
  forall k, filter (row_tie order (glob_rq_txt dir) k) (index m) =
            filter (row_tie order (glob_rq_txt dir) k) seen.
Proof.
  intros H seen. subst seen. rewrite <- tally_keys_first_seen.
  split; [reflexivity |]. intros k.
  apply run_Ok in H as (items & Hitems & -> & _).
  apply sorted_inv in Hitems as (kl & E & F & ->).
  unfold dict_keys. rewrite <- E. rewrite !filter_map_swap. f_equal. f_equal.
  assert (T : forall ka, In ka kl ->
            row_tie order (glob_rq_txt dir) k (fst (snd ka)) =
            (fst k =? fst (fst ka))%Z && (snd k =? snd (fst ka))%Z).
  { intros [key [x n]] Hin. rewrite Forall_forall in F.
    pose proof (F _ Hin) as Hk. unfold keyed in Hk. cbn [fst snd] in *.
    apply row_key_Ok in Hk as (z & Hz & ->). cbn [fst snd] in *.
    unfold row_tie. rewrite Hz.
    assert (Hn : In (x, n) (snd (read_files order (glob_rq_txt dir)))).
    { rewrite <- E. change (x, n) with (snd ((n, z), (x, n))). now apply in_map. }
    apply dict_In_get in Hn; [| apply tally_keys_NoDup_read_files].
    rewrite tally_read_files in Hn.
    destruct (file_frequency order (glob_rq_txt dir) x =? 0)%Z; [discriminate |].
    injection Hn as <-. reflexivity. }
  rewrite (filter_ext_in _ (fun ka => (fst k =? fst (fst ka))%Z && (snd k =? snd (fst ka))%Z)
             (Py.stable_sort tuple_ltb kl)).
  - rewrite (filter_ext_in _ (fun ka => (fst k =? fst (fst ka))%Z && (snd k =? snd (fst ka))%Z)
               kl) by exact T.
    apply (stable_sort_filter tuple_ltb
             (fun a b : Z * Z => (fst a =? fst b)%Z && (snd a =? snd b)%Z)).
    + intros [a1 a2] [b1 b2] Hab. cbn [fst snd] in Hab.
      apply andb_prop in Hab as [H1 H2]. apply Z.eqb_eq in H1, H2. now subst.
    + apply tuple_ltb_irrefl.
  - intros ka Hin. apply T.
    apply Permutation_in with (2 := Hin). apply stable_sort_perm.
Qed.

Lemma rows_keep_first_seen_order_witness :
  run reversed_order tied_rows_dir = Ok tied_rows_frame /\
  referencias reversed_order (text ["A0001"; "B0001"]) = ["B0001"; "A0001"] /\
  filter (row_tie reversed_order (glob_rq_txt tied_rows_dir) (1, 1)%Z) (index tied_rows_frame)
  = ["B0001"; "A0001"].
Proof.
  split; [reflexivity |]. split; [reflexivity |].
  destruct (rows_keep_first_seen_order reversed_order tied_rows_dir tied_rows_frame eq_refl)
    as [_ H].
  rewrite (H (1, 1)%Z). reflexivity.
Defined.

(** X2. Ties in the column sort are broken by the order of discovery: the
    keys of [referencias_por_arquivo] stand in the order in which the files
    as listed first derive them, and among the columns of the matrix those
    with one same integer stand in that order. *)
Theorem columns_keep_listing_order (order : SetOrder) (dir : list entry) (m : DataFrame) :
  run order dir = Ok m ->
  dict_keys (fst (read_files order (glob_rq_txt dir))) =
    first_seen (derived_keys (glob_rq_txt dir)) /\
  forall n, filter (column_tie n) (columns m) =
            filter (column_tie n) (first_seen (derived_keys (glob_rq_txt dir))).
Proof.
  intros H. rewrite <- (por_arquivo_keys_first_seen order).
  split; [reflexivity |]. intros n.
  apply run_Ok in H as (_ & _ & _ & Hcols & _).
  apply sorted_inv in Hcols as (kl & E & F & ->).
  rewrite <- E. rewrite !filter_map_swap. f_equal.
  assert (T : forall ka, In ka kl -> column_tie n (snd ka) = (n =? fst ka)%Z).
  { intros [z c] Hin. rewrite Forall_forall in F. pose proof (F _ Hin) as Hk.
    unfold keyed in Hk. cbn [fst snd] in *. unfold column_tie. now rewrite Hk. }
  rewrite (filter_ext_in _ (fun ka => (n =? fst ka)%Z) (Py.stable_sort Z.ltb kl)).
  - rewrite (filter_ext_in _ (fun ka => (n =? fst ka)%Z) kl) by exact T.
    apply (stable_sort_filter Z.ltb Z.eqb).
    + intros a b. apply Z.eqb_eq.
    + apply Z.ltb_irrefl.
  - intros ka Hin. apply T.
    apply Permutation_in with (2 := Hin). apply stable_sort_perm.
Qed.

Lemma columns_keep_listing_order_witness :
  run kept_order tie_dir_swapped = Ok tie_frame_swapped /\
  filter (column_tie 1) (columns tie_frame_swapped) = ["RQ01"; "RQ1"].
Proof.
  split; [reflexivity |].
  destruct (columns_keep_listing_order kept_order tie_dir_swapped tie_frame_swapped eq_refl)
    as [_ H].
  rewrite (H 1%Z). reflexivity.
Defined.

(** ** When the run returns and what it raises *)

Lemma sorted_Ok_keys {A K : Type} (ltb : K -> K -> bool) (key : A -> result K) l r :
  Py.sorted ltb key l = Ok r -> forall a, In a l -> exists k, key a = Ok k.
Proof.
  intros H a Ha. apply sorted_inv in H as (kl & E & F & _). subst l.
  apply in_map_iff in Ha as (ka & <- & Hin). rewrite Forall_forall in F.
  exists (fst ka). now apply F.
Qed.

Lemma fnmatch_starts_rq name :
  fnmatch_rq_txt name = true -> exists rest, name = String "r" (String "q" rest).
Proof.
  unfold fnmatch_rq_txt. intros H. apply andb_prop in H as [H _].
  apply andb_prop in H as [H _].
  destruct name as [| c1 [| c2 rest]]; cbn [prefix] in H; try discriminate.
  - destruct (ascii_dec "r" c1); discriminate.
  - destruct (ascii_dec "r" c1) as [<- |]; [| discriminate].
    destruct (ascii_dec "q" c2) as [<- |]; [| discriminate]. eauto.
Qed.

(** The key of a discovered file starts with "RQ", so [split('RQ')] yields
    at least two pieces. *)
Lemma discovered_key_suffix name :
  fnmatch_rq_txt name = true -> exists suffix, Py.getitem (Py.split "RQ" (file_key name)) 1 = Ok suffix.
Proof.
  intros H. apply fnmatch_starts_rq in H as [rest ->].
  rewrite file_key_before_dot. cbn [before_dot Ascii.eqb Bool.eqb Py.upper].
  change (Py.upper_char "r") with "R"%char. change (Py.upper_char "q") with "Q"%char.
  unfold Py.split. cbn [Py.split_aux prefix].
  destruct (ascii_dec "R" "R") as [_ | N]; [| now contradiction N].
  destruct (ascii_dec "Q" "Q") as [_ | N]; [| now contradiction N].
  rewrite prefix_empty. cbn [String.length Nat.sub].
  destruct (Py.split_aux "RQ" 0 "" (Py.upper (before_dot rest))) as [| piece l] eqn:E.
  - now apply split_aux_nonempty in E.
  - exists piece. reflexivity.
Qed.

Lemma column_key_Raise name e :
  fnmatch_rq_txt name = true -> column_key (file_key name) = Raise e -> e = ValueError.
Proof.
  intros M. unfold column_key. destruct (discovered_key_suffix name M) as [suffix ->].
  simpl. apply int_Raise.
Qed.

Lemma run_model_returns_iff (order : SetOrder) (dir : list entry) :
  (exists m, run order dir = Ok m) <->
  (forall e x, In e (glob_rq_txt dir) -> identifier_of (snd e) x ->
               exists n, Py.int (Py.slice_last 4 x) = Ok n) /\
  (forall e, In e (glob_rq_txt dir) -> exists n, column_key (file_key (fst e)) = Ok n).
Proof.
  split.
  - intros [m H]. apply run_Ok in H as (items & Hitems & _ & Hcols & _). split.
    + intros e x He Hx.
      assert (Hk : In x (dict_keys (snd (read_files order (glob_rq_txt dir))))).
      { apply tally_keys_read_files. exists e. split; [assumption |].
        now apply referencias_In. }
      apply in_map_iff in Hk as ([x' n] & E & Hin). simpl in E. subst x'.
      destruct (sorted_Ok_keys _ _ _ _ Hitems _ Hin) as [k Hk].
      apply row_key_Ok in Hk as (z & Hz & _). eauto.
    + intros e He. apply (sorted_Ok_keys _ _ _ _ Hcols).
      apply (por_arquivo_keys order). eauto.
  - intros [Hrows Hcols]. now apply run_returns.
Qed.

Lemma run_model_raises_ValueError (order : SetOrder) (dir : list entry) (e : exn) :
  run order dir = Raise e -> e = ValueError.
Proof.
  unfold run, todas_referencias, presence. intros H.
  destruct (Py.sorted tuple_ltb row_key (snd (read_files order (glob_rq_txt dir))))
    as [items | e'] eqn:Hrows; simpl in H.
  - destruct (Py.sorted Z.ltb column_key
                (dict_keys (fst (read_files order (glob_rq_txt dir)))))
      as [cols | e'] eqn:Hcols; simpl in H; [discriminate |].
    injection H as <-.
    apply sorted_Raise_inv in Hcols as (c & Hc & Hraise).
    apply por_arquivo_keys in Hc as (f & Hf & <-).
    apply filter_In in Hf as [_ M]. now apply column_key_Raise in Hraise.
  - injection H as <-. apply sorted_Raise_inv in Hrows as (x & _ & Hraise).
    now apply row_key_Raise in Hraise.
Qed.


(** ** The shape of the frame *)

Lemma set_labelled_length {V : Type} (l : string) (f : V -> V) labels (vs : list V) :
  length vs = length labels -> length (set_labelled l f labels vs) = length labels.
Proof.
  intros E. unfold set_labelled. rewrite length_map, length_combine, E. apply Nat.min_id.
Qed.

Lemma set_labelled_Forall {V : Type} (P : V -> Prop) (l : string) (f : V -> V) labels
  (vs : list V) :
  (forall v, P v -> P (f v)) -> Forall P vs -> Forall P (set_labelled l f labels vs).
Proof.
  intros Hf F. unfold set_labelled. apply Forall_forall. intros v Hv.
  apply in_map_iff in Hv as ([l' v'] & <- & Hin). apply in_combine_r in Hin.
  rewrite Forall_forall in F. cbn [fst snd].
  destruct (String.eqb l' l); auto.
Qed.

Lemma at_set_binary df r c : binary_frame df -> binary_frame (at_set df r c 1%Z).
Proof.
  intros [L F]. unfold binary_frame, at_set. cbn [index columns values]. split.
  - now apply set_labelled_length.
  - apply set_labelled_Forall; [| assumption].
    intros row [Lr Fr]. split.
    + now apply set_labelled_length.
    + apply set_labelled_Forall; [| assumption]. intros _ _. now right.
Qed.

Lemma fill_binary items df : binary_frame df -> binary_frame (fold_left fill_file items df).
Proof.
  revert df. induction items as [| [c refs] items IH]; simpl; intros df B; [assumption |].
  apply IH. unfold fill_file. cbn [fst snd]. clear IH. revert df B.
  induction refs as [| r refs IHr]; simpl; intros df B; [assumption |].
  apply IHr. now apply at_set_binary.
Qed.

Lemma DataFrame_fill_binary idx cols : binary_frame (DataFrame_fill 0%Z idx cols).
Proof.
  unfold binary_frame, DataFrame_fill. cbn [index columns values]. split.
  - apply length_map.
  - apply Forall_forall. intros row Hrow. apply in_map_iff in Hrow as (_ & <- & _).
    split; [apply length_map |].
    apply Forall_forall. intros v Hv. apply in_map_iff in Hv as (_ & <- & _). now left.
Qed.

Lemma first_seen_length l : length (first_seen l) <= length l.
Proof.
  induction l as [| x l IH] using rev_ind; [reflexivity |].
  rewrite first_seen_snoc, length_app. simpl.
  destruct (mem x (first_seen l)); [| rewrite length_app; simpl]; lia.
Qed.

Lemma run_columns_length order dir m :
  run order dir = Ok m -> length (columns m) <= length (glob_rq_txt dir).
Proof.
  intros H. apply run_columns in H. rewrite (Permutation_length H).
  rewrite por_arquivo_keys_first_seen.
  etransitivity; [apply first_seen_length |].
  unfold derived_keys. now rewrite length_map.
Qed.

(** X5. The matrix the run returns is rectangular and binary: one list of
    cells per row, one cell per column in each, every cell 0 or 1; and it
    has no more columns than files were discovered. *)
Theorem frame_is_binary (order : SetOrder) (dir : list entry) (m : DataFrame) :
  run order dir = Ok m ->
  binary_frame m /\ length (columns m) <= length (glob_rq_txt dir).
Proof.
  intros H. split.
  - apply run_Ok in H as (_ & _ & _ & _ & E). rewrite E.
    apply fill_binary, DataFrame_fill_binary.
  - now apply run_columns_length in H.
Qed.

Lemma frame_is_binary_witness :
  run kept_order sample_dir = Ok sample_frame /\ binary_frame sample_frame.
Proof.
  split; [reflexivity |].
  exact (proj1 (frame_is_binary kept_order sample_dir sample_frame eq_refl)).
Defined.

(** ** Directories whose files derive pairwise distinct keys *)

Lemma distinct_keys_last arquivos e :
  NoDup (derived_keys arquivos) -> In e arquivos ->
  last_with_key arquivos (file_key (fst e)) e.
Proof.
  intros ND Hin. apply in_split in Hin as (before & after & ->).
  exists before, after. split; [reflexivity |]. split; [reflexivity |].
  intros e' He' E. unfold derived_keys in ND. rewrite map_app in ND. cbn [map] in ND.
  apply NoDup_remove_2 in ND. apply ND. apply in_or_app. right.
  rewrite <- E. now apply (in_map (fun e => file_key (fst e))).
Qed.

Lemma first_seen_NoDup_id l : NoDup l -> first_seen l = l.
Proof.
  induction l as [| x l IH] using rev_ind; intros ND; [reflexivity |].
  apply NoDup_remove in ND as [ND Hx]. rewrite app_nil_r in ND, Hx.
  rewrite first_seen_snoc, IH by assumption.
  apply mem_false in Hx. now rewrite Hx.
Qed.

Lemma filter_map_length {A B : Type} (f : B -> bool) (g : A -> B) (l : list A) :
  length (filter f (map g l)) = length (filter (fun a => f (g a)) l).
Proof. now rewrite filter_map_swap, length_map. Qed.

Section DistinctKeys.
Variable order : SetOrder.

(** With distinct keys the cell of a row in the column of a file tells
    whether the file's set has the row's identifier. *)
Lemma cell_of_file dir m r e :
  run order dir = Ok m -> NoDup (derived_keys (glob_rq_txt dir)) ->
  In r (index m) -> In e (glob_rq_txt dir) ->
  at_get m r (file_key (fst e)) =
  Some (if mem r (referencias order (snd e)) then 1 else 0)%Z.
Proof.
  intros H ND Hr He.
  assert (Hc : In (file_key (fst e)) (columns m)).
  { apply (run_columns_In order dir m _ H). eauto. }
  rewrite (run_cell order dir m r _ H Hr Hc).
  now rewrite (por_arquivo_last order _ _ _ (distinct_keys_last _ _ ND He)).
Qed.

Lemma row_ones_frequency dir m r :
  run order dir = Ok m -> NoDup (derived_keys (glob_rq_txt dir)) ->
  In r (index m) ->
  Z.of_nat (row_ones m r) = file_frequency order (glob_rq_txt dir) r.
Proof.
  intros H ND Hr. unfold row_ones, file_frequency. f_equal.
  assert (P : Permutation (columns m) (derived_keys (glob_rq_txt dir))).
  { rewrite (run_columns order dir m H), por_arquivo_keys_first_seen.
    now rewrite first_seen_NoDup_id. }
  rewrite (Permutation_length (Permutation_filter_pres _ _ _ P)).
  unfold derived_keys. rewrite filter_map_length. f_equal.
  apply filter_ext_in. intros e He.
  rewrite (cell_of_file dir m r e H ND Hr He).
  now destruct (mem r (referencias order (snd e))).
Qed.
End DistinctKeys.

(** X6. When the discovered files derive pairwise distinct keys, the
    number of cells that hold 1 in a row is the number of files that
    contain the row's identifier, which is the tally the row was sorted by;
    it is at least 1, so the matrix has no row of zeros. *)
Theorem row_sum_is_the_tally (order : SetOrder) (dir : list entry) (m : DataFrame) (r : string) :
  run order dir = Ok m ->
  NoDup (derived_keys (glob_rq_txt dir)) ->
  In r (index m) ->
  dict_get r (snd (read_files order (glob_rq_txt dir))) = Some (Z.of_nat (row_ones m r)) /\
  1 <= row_ones m r <= length (glob_rq_txt dir).
Proof.
  intros H ND Hr.
  pose proof (row_ones_frequency order dir m r H ND Hr) as E.
  assert (Hpos : (0 < file_frequency order (glob_rq_txt dir) r)%Z).
  { apply file_frequency_pos. now apply (run_index_In order dir m r H). }
  split.
  - rewrite tally_read_files, E.
    destruct (Z.eqb_spec (file_frequency order (glob_rq_txt dir) r) 0); [lia | reflexivity].
  - split; [lia |]. unfold row_ones.
    etransitivity; [apply filter_length_le |].
    now apply run_columns_length in H.
Qed.

Lemma row_sum_is_the_tally_witness :
  run kept_order sample_dir = Ok sample_frame /\
  dict_get "A0002" (snd (read_files kept_order (glob_rq_txt sample_dir))) =
  Some (Z.of_nat (row_ones sample_frame "A0002")).
Proof.
  split; [reflexivity |].
  refine (proj1 (row_sum_is_the_tally kept_order sample_dir sample_frame "A0002" eq_refl _ _)).
  - change (derived_keys (glob_rq_txt sample_dir)) with ["RQ2"; "RQ1"; "RQ10"].
    repeat constructor; simpl; intuition discriminate.
  - right; right; left; reflexivity.
Defined.

(** ** Independence of the listing order *)

Lemma run_cell_None order dir m r c :
  run order dir = Ok m -> ~ In r (index m) \/ ~ In c (columns m) -> at_get m r c = None.
Proof.
  intros H Hnot. apply run_Ok in H as (_ & _ & _ & _ & E). rewrite E.
  rewrite at_get_fold_fill.
  assert (N : at_get (DataFrame_fill 0%Z (index m) (columns m)) r c = None).
  { unfold at_get, DataFrame_fill. cbn [index columns values].
    destruct (in_dec string_dec r (index m)) as [Hr | Hr].
    - rewrite by_label_const by assumption. apply by_label_None. tauto.
    - now rewrite by_label_None. }
  now rewrite N.
Qed.

Lemma run_index_identifier order dir m r :
  run order dir = Ok m ->
  In r (index m) <-> exists e, In e (glob_rq_txt dir) /\ identifier_of (snd e) r.
Proof.
  intros H. rewrite (run_index_In order dir m r H).
  split; intros (e & He & Hr); exists e; (split; [assumption |]);
    now apply (referencias_In order (snd e) r).
Qed.

Lemma mem_referencias_ext order order' contents r :
  mem r (referencias order contents) = mem r (referencias order' contents).
Proof.
  apply eq_true_iff_eq. rewrite !mem_In, !referencias_In. tauto.
Qed.

(** X7. When the discovered files derive pairwise distinct keys, the
    cells of the matrix do not depend on the order in which the directory
    lists the files nor on the iteration order of the sets: two runs that
    return give every pair of labels the same cell (or both none). *)
Theorem cells_independent_of_listing
  (order order' : SetOrder) (dir dir' : list entry) (m m' : DataFrame) :
  Permutation dir dir' ->
  NoDup (derived_keys (glob_rq_txt dir)) ->
  run order dir = Ok m -> run order' dir' = Ok m' ->
  forall r c, at_get m r c = at_get m' r c.
Proof.
  intros P ND H H' r c.
  assert (PG : Permutation (glob_rq_txt dir) (glob_rq_txt dir')).
  { now apply Permutation_filter_pres. }
  assert (ND' : NoDup (derived_keys (glob_rq_txt dir'))).
  { eapply Permutation_NoDup; [| exact ND]. unfold derived_keys. now apply Permutation_map. }
  assert (Hidx : In r (index m) <-> In r (index m')).
  { rewrite (run_index_identifier order dir m r H), (run_index_identifier order' dir' m' r H').
    split; intros (e & He & Hr); exists e; (split; [| assumption]).
    - now apply Permutation_in with (1 := PG).
    - apply Permutation_in with (2 := He). now symmetry. }
  assert (Hcol : In c (columns m) <-> In c (columns m')).
  { rewrite (run_columns_In order dir m c H), (run_columns_In order' dir' m' c H').
    split; intros (e & He & Hr); exists e; (split; [| assumption]).
    - now apply Permutation_in with (1 := PG).
    - apply Permutation_in with (2 := He). now symmetry. }
  destruct (in_dec string_dec r (index m)) as [Hr | Hr].
  - destruct (in_dec string_dec c (columns m)) as [Hc | Hc].
    + apply (run_columns_In order dir m c H) in Hc as (e & He & <-).
      rewrite (cell_of_file order dir m r e H ND Hr He).
      rewrite (cell_of_file order' dir' m' r e H' ND'); [| tauto |].
      * now rewrite (mem_referencias_ext order order').
      * now apply Permutation_in with (1 := PG).
    + rewrite (run_cell_None order dir m r c H) by tauto.
      rewrite (run_cell_None order' dir' m' r c H'); tauto.
  - rewrite (run_cell_None order dir m r c H) by tauto.
    rewrite (run_cell_None order' dir' m' r c H'); tauto.
Qed.

Lemma cells_independent_of_listing_witness :
  run kept_order sample_dir = Ok sample_frame /\
  run reversed_order (rev sample_dir) = Ok sample_frame /\
  at_get sample_frame "A0001" "RQ10" = at_get sample_frame "A0001" "RQ10".
Proof.
  split; [reflexivity |]. split; [reflexivity |].
  apply (cells_independent_of_listing kept_order reversed_order sample_dir (rev sample_dir)
           sample_frame sample_frame).
  - apply Permutation_rev.
  - change (derived_keys (glob_rq_txt sample_dir)) with ["RQ2"; "RQ1"; "RQ10"].
    repeat constructor; simpl; intuition discriminate.
  - reflexivity.
  - reflexivity.
Defined.

(** ** Well-formed names and identifiers *)

Lemma digit_props c :
  is_digit c = true ->
  Py.int_isspace c = false /\ c <> "+"%char /\ c <> "-"%char /\ c <> "."%char /\
  c <> "R"%char /\ Py.upper_char c = c.
Proof.
  destruct c as [[] [] [] [] [] [] [] []]; intros H; cbv in H; try discriminate H;
    repeat split; try reflexivity; discriminate.
Qed.

Lemma all_chars_impl (p q : ascii -> bool) s :
  (forall c, p c = true -> q c = true) -> all_chars p s = true -> all_chars q s = true.
Proof.
  intros Hpq. induction s as [| c s IH]; simpl; [trivial |].
  intros H. apply andb_prop in H as [Hc H]. now rewrite (Hpq c Hc), IH.
Qed.

Lemma rstrip_by_id p s :
  all_chars (fun c => negb (p c)) s = true -> Py.rstrip_by p s = s.
Proof.
  induction s as [| c s IH]; simpl; [trivial |].
  intros H. apply andb_prop in H as [Hc H]. rewrite IH by assumption.
  apply negb_true_iff in Hc. rewrite Hc. now destruct s.
Qed.

(** On a non-empty string of digits [int] is the digit loop. *)
Lemma int_digit_string s :
  s <> EmptyString -> all_chars is_digit s = true ->
  Py.int s = match Py.int_digits 0 false s with
             | Some z => Ok z
             | None => Raise ValueError
             end.
Proof.
  intros N D. destruct s as [| c t]; [now contradiction N |].
  assert (Hsp : all_chars (fun c => negb (Py.int_isspace c)) (String c t) = true).
  { apply all_chars_impl with (2 := D). intros c' Hc'.
    apply digit_props in Hc' as [-> _]. reflexivity. }
  simpl in D. apply andb_prop in D as [Hc _].
  unfold Py.int. cbn [Py.lstrip_by].
  destruct (digit_props c Hc) as (Hs & _). rewrite Hs.
  rewrite (rstrip_by_id _ _ Hsp). clear Hsp Hs.
  destruct c as [[] [] [] [] [] [] [] []]; cbv in Hc; try discriminate Hc; reflexivity.
Qed.

Lemma string_of_uint_digits d : all_chars is_digit (NilEmpty.string_of_uint d) = true.
Proof. induction d; simpl; trivial. Qed.

Lemma int_digits_numeral d acc prev :
  Py.int_digits (Z.of_nat acc) prev (NilEmpty.string_of_uint d) =
  match d with
  | Decimal.Nil => if prev then Some (Z.of_nat acc) else None
  | _ => Some (Z.of_nat (Nat.of_uint_acc d acc))
  end.
Proof.
  revert acc prev.
  assert (Hacc : forall d' acc',
            match d' with
            | Decimal.Nil => Some (Z.of_nat acc')
            | _ => Some (Z.of_nat (Nat.of_uint_acc d' acc'))
            end = Some (Z.of_nat (Nat.of_uint_acc d' acc'))).
  { intros d' acc'. now destruct d'. }
  induction d as [| d IH | d IH | d IH | d IH | d IH | d IH | d IH | d IH | d IH | d IH];
    intros acc prev; [reflexivity | ..];
    cbn [NilEmpty.string_of_uint Py.int_digits Nat.of_uint_acc];
    rewrite Nat.tail_mul_spec;
    match goal with
    | |- context [Py.digit_val ?c] =>
        let v := eval cbv in (Py.digit_val c) in change (Py.digit_val c) with v
    end; cbv iota beta;
    match goal with
    | |- Py.int_digits ?z true _ = Some (Z.of_nat (Nat.of_uint_acc _ ?a)) =>
        replace z with (Z.of_nat a) by lia
    end;
    rewrite IH; apply Hacc.
Qed.

Lemma to_uint_not_Nil n : Nat.to_uint n <> Decimal.Nil.
Proof.
  intros E. pose proof (Unsigned.of_to n) as H. rewrite E in H. simpl in H.
  subst n. discriminate E.
Qed.

Lemma int_numeral n : Py.int (numeral n) = Ok (Z.of_nat n).
Proof.
  unfold numeral. rewrite int_digit_string.
  - change 0%Z with (Z.of_nat 0). rewrite int_digits_numeral.
    destruct (Nat.to_uint n) eqn:E; try now apply to_uint_not_Nil in E.
    all: rewrite <- E; change (Nat.of_uint_acc (Nat.to_uint n) 0) with (Nat.of_uint (Nat.to_uint n));
      now rewrite Unsigned.of_to.
  - destruct (Nat.to_uint n) eqn:E; try discriminate. now apply to_uint_not_Nil in E.
  - apply string_of_uint_digits.
Qed.

Lemma split_RQ_digits cur s :
  all_chars is_digit s = true -> Py.split_aux "RQ" 0 cur s = [(cur ++ s)%string].
Proof.
  revert cur. induction s as [| c s IH]; intros cur D.
  - simpl. now rewrite append_empty_r.
  - simpl in D. apply andb_prop in D as [Hc D]. cbn [Py.split_aux prefix].
    destruct (digit_props c Hc) as (_ & _ & _ & _ & NR & _).
    destruct (ascii_dec "R" c) as [E | _]; [now contradiction NR |].
    now rewrite IH, append_snoc.
Qed.

Lemma upper_digits s : all_chars is_digit s = true -> Py.upper s = s.
Proof.
  induction s as [| c s IH]; simpl; [trivial |].
  intros D. apply andb_prop in D as [Hc D].
  destruct (digit_props c Hc) as (_ & _ & _ & _ & _ & ->). now rewrite IH.
Qed.

Lemma digits_no_dot s : all_chars is_digit s = true -> no_dot s = true.
Proof.
  unfold no_dot. apply all_chars_impl. intros c Hc.
  destruct (digit_props c Hc) as (_ & _ & _ & ND & _).
  apply negb_true_iff. now apply Ascii.eqb_neq.
Qed.

Lemma string_length_append a b :
  String.length (a ++ b) = String.length a + String.length b.
Proof. induction a as [| c a IH]; simpl; [reflexivity | now rewrite IH]. Qed.

Lemma substring_append_r a b n : substring (String.length a) n (a ++ b) = substring 0 n b.
Proof. induction a as [| c a IH]; simpl; [reflexivity | assumption]. Qed.

Lemma slice_last_append a b n : String.length b = n -> Py.slice_last n (a ++ b) = b.
Proof.
  intros <-. unfold Py.slice_last. rewrite string_length_append.
  replace (String.length a + String.length b - String.length b) with (String.length a) by lia.
  now rewrite substring_append_r, substring_all.
Qed.

Lemma canonical_name_facts (n : nat) :
  let name := ("rq" ++ numeral n ++ ".txt")%string in
  fnmatch_rq_txt name = true /\
  file_key name = ("RQ" ++ numeral n)%string /\
  column_key (file_key name) = Ok (Z.of_nat n).
Proof.
  intros name. subst name.
  pose proof (string_of_uint_digits (Nat.to_uint n)) as D. fold (numeral n) in D.
  assert (K : file_key ("rq" ++ numeral n ++ ".txt") = ("RQ" ++ numeral n)%string).
  { rewrite file_key_before_dot.
    change ("rq" ++ numeral n ++ ".txt")%string with (("rq" ++ numeral n) ++ ".txt")%string.
    rewrite before_dot_extension.
    - rewrite upper_append, (upper_digits (numeral n)) by assumption. reflexivity.
    - change (no_dot ("rq" ++ numeral n)) with (no_dot (numeral n)). now apply digits_no_dot. }
  split; [| split].
  - unfold fnmatch_rq_txt. cbn [append prefix].
    destruct (ascii_dec "r" "r") as [_ | N]; [| now contradiction N].
    destruct (ascii_dec "q" "q") as [_ | N]; [| now contradiction N].
    rewrite prefix_empty.
    change (String "r" (String "q" (numeral n ++ ".txt")))
      with (("rq" ++ numeral n) ++ ".txt")%string.
    rewrite slice_last_append by reflexivity.
    rewrite string_length_append. cbn [String.length append].
    apply andb_true_intro. split; [| reflexivity].
    apply andb_true_intro. split; [reflexivity |]. apply Nat.leb_le. lia.
  - exact K.
  - rewrite K. unfold column_key, Py.split. cbn [append Py.split_aux prefix].
    destruct (ascii_dec "R" "R") as [_ | N]; [| now contradiction N].
    destruct (ascii_dec "Q" "Q") as [_ | N]; [| now contradiction N].
    rewrite prefix_empty. cbn [String.length Nat.sub].
    rewrite split_RQ_digits by assumption. cbn [Py.getitem nth_error bind append].
    apply int_numeral.
Qed.

(** X8. For every natural number n the file [rq<n>.txt] is discovered, its
    column is labelled [RQ<n>] and its column sort key is n: the columns of
    such files stand in numeric order, RQ2 before RQ10. *)
Theorem canonical_name_sorts_at_its_number (n : nat) :
  let name := ("rq" ++ numeral n ++ ".txt")%string in
  fnmatch_rq_txt name = true /\
  file_key name = ("RQ" ++ numeral n)%string /\
  column_key (file_key name) = Ok (Z.of_nat n).
Proof. exact (canonical_name_facts n). Qed.

Lemma is_digit_val c : is_digit c = true -> exists v, Py.digit_val c = Some v.
Proof. unfold is_digit. destruct (Py.digit_val c); [eauto | discriminate]. Qed.

Lemma int_four_digits a b c d va vb vc vd :
  Py.digit_val a = Some va -> Py.digit_val b = Some vb ->
  Py.digit_val c = Some vc -> Py.digit_val d = Some vd ->
  Py.int (String a (String b (String c (String d EmptyString)))) =
  Ok (1000 * va + 100 * vb + 10 * vc + vd)%Z.
Proof.
  intros Ha Hb Hc Hd. rewrite int_digit_string.
  - cbn [Py.int_digits]. rewrite Ha, Hb, Hc, Hd. f_equal. lia.
  - discriminate.
  - cbn [all_chars]. unfold is_digit. now rewrite Ha, Hb, Hc, Hd.
Qed.

(** X9. An identifier that ends in four decimal digits has a row sort
    key: the integer of its last four characters is the number the four
    digits write, leading zeros included. *)
Theorem four_digit_suffix_parses (p : string) (a b c d : ascii) (va vb vc vd : Z) :
  Py.digit_val a = Some va -> Py.digit_val b = Some vb ->
  Py.digit_val c = Some vc -> Py.digit_val d = Some vd ->
  Py.int (Py.slice_last 4 (p ++ String a (String b (String c (String d EmptyString))))) =
  Ok (1000 * va + 100 * vb + 10 * vc + vd)%Z.
Proof.
  intros Ha Hb Hc Hd. rewrite slice_last_append by reflexivity.
  now apply int_four_digits.
Qed.

Lemma four_digit_suffix_parses_witness :
  Py.int (Py.slice_last 4 "REF0012") = Ok 12%Z.
Proof.
  exact (four_digit_suffix_parses "REF" "0" "0" "1" "2" 0 0 1 2
           eq_refl eq_refl eq_refl eq_refl).
Defined.

Lemma run_model_well_formed (order : SetOrder) (dir : list entry) :
  (forall e, In e (glob_rq_txt dir) ->
             exists n, fst e = ("rq" ++ numeral n ++ ".txt")%string) ->
  (forall e x, In e (glob_rq_txt dir) -> identifier_of (snd e) x ->
               exists p s, x = (p ++ s)%string /\ String.length s = 4 /\
                           all_chars is_digit s = true) ->
  exists m, run order dir = Ok m.
Proof.
  intros Hnames Hids. apply run_returns.
  - intros e x He Hx. destruct (Hids e x He Hx) as (p & s & -> & L & D).
    rewrite slice_last_append by assumption.
    destruct s as [| a [| b [| c [| d [| ? ?]]]]]; try discriminate L.
    cbn [all_chars] in D.
    apply andb_prop in D as [Da D]. apply andb_prop in D as [Db D].
    apply andb_prop in D as [Dc D]. apply andb_prop in D as [Dd _].
    apply is_digit_val in Da as [va Ha]. apply is_digit_val in Db as [vb Hb].
    apply is_digit_val in Dc as [vc Hc]. apply is_digit_val in Dd as [vd Hd].
    rewrite (int_four_digits a b c d va vb vc vd Ha Hb Hc Hd). eauto.
  - intros e He. destruct (Hnames e He) as [n ->].
    exists (Z.of_nat n). apply (canonical_name_facts n).
Qed.


(** ** Discovery *)

Lemma fnmatch_of_parts mid : fnmatch_rq_txt ("rq" ++ mid ++ ".txt") = true.
Proof.
  unfold fnmatch_rq_txt. cbn [append prefix].
  destruct (ascii_dec "r" "r") as [_ | N]; [| now contradiction N].
  destruct (ascii_dec "q" "q") as [_ | N]; [| now contradiction N].
  rewrite prefix_empty.
  change (String "r" (String "q" (mid ++ ".txt"))) with (("rq" ++ mid) ++ ".txt")%string.
  rewrite slice_last_append by reflexivity.
  rewrite string_length_append. cbn [String.length append].
  apply andb_true_intro. split; [| reflexivity].
  apply andb_true_intro. split; [reflexivity |]. apply Nat.leb_le. lia.
Qed.

Lemma fnmatch_parts name :
  fnmatch_rq_txt name = true -> exists mid, name = ("rq" ++ mid ++ ".txt")%string.
Proof.
  intros M. destruct (fnmatch_starts_rq name M) as [rest ->].
  unfold fnmatch_rq_txt, Py.slice_last in M.
  apply andb_prop in M as [M E]. apply andb_prop in M as [_ L].
  apply Nat.leb_le in L. apply String.eqb_eq in E. cbn [String.length] in L, E.
  exists (substring 0 (String.length rest - 4) rest). cbn [append]. do 2 f_equal.
  rewrite (substring_cut (String.length rest - 4) rest) at 1 by lia.
  f_equal. replace (String.length rest - (String.length rest - 4)) with 4 by lia.
  replace (S (S (String.length rest)) - 4) with (S (S (String.length rest - 4))) in E by lia.
  exact E.
Qed.

(** X11. Discovery returns, in the order of the listing, exactly the
    entries whose name is "rq", then any text (none included), then
    ".txt": [rq.txt] and [rq1.v2.txt] are discovered, [RQ1.txt] and
    [rq1.txt.bak] are not. *)
Theorem discovery_pattern (dir : list entry) (e : entry) :
  In e (glob_rq_txt dir) <->
  In e dir /\ exists mid, fst e = ("rq" ++ mid ++ ".txt")%string.
Proof.
  unfold glob_rq_txt. rewrite filter_In. split.
  - intros [Hin M]. split; [assumption | now apply fnmatch_parts].
  - intros [Hin [mid E]]. split; [assumption |]. rewrite E. apply fnmatch_of_parts.
Qed.

(** ** Identifiers *)

Lemma rstrip_by_cons p c s :
  p c = false -> Py.rstrip_by p (String c s) = String c (Py.rstrip_by p s).
Proof.
  intros H. simpl. destruct (Py.rstrip_by p s); [now rewrite H | reflexivity].
Qed.

Lemma rstrip_by_idem p s : Py.rstrip_by p (Py.rstrip_by p s) = Py.rstrip_by p s.
Proof.
  induction s as [| c s IH]; [reflexivity |].
  cbn [Py.rstrip_by]. destruct (Py.rstrip_by p s) as [| a r] eqn:E.
  - destruct (p c) eqn:Hc; [reflexivity |]. simpl. now rewrite Hc.
  - remember (String a r) as t. cbn [Py.rstrip_by]. rewrite IH. now subst t.
Qed.

Lemma strip_idem s : Py.strip (Py.strip s) = Py.strip s.
Proof.
  unfold Py.strip. destruct (Py.lstrip_by Py.isspace s) as [| c t] eqn:E; [reflexivity |].
  apply lstrip_by_head in E. rewrite (rstrip_by_cons _ c t E).
  cbn [Py.lstrip_by]. rewrite E.
  rewrite <- (rstrip_by_cons _ c t E). apply rstrip_by_idem.
Qed.

(** X12. The identifiers of a file carry no surrounding whitespace:
    stripping an identifier again leaves it as it is, so every row label
    of the matrix is a non-empty text that neither starts nor ends with
    whitespace. *)
Theorem identifiers_are_trimmed (order : SetOrder) (dir : list entry) (m : DataFrame) (r : string) :
  run order dir = Ok m -> In r (index m) ->
  Py.strip r = r /\
  exists c t, r = String c t /\ Py.isspace c = false /\
              Py.rstrip_by Py.isspace r = r.
Proof.
  intros H Hr. apply (run_index_identifier order dir m r H) in Hr as (e & _ & linha & _ & E & N).
  subst r.
  assert (S : Py.strip (Py.strip linha) = Py.strip linha) by apply strip_idem.
  split; [assumption |].
  unfold Py.strip in *.
  destruct (Py.lstrip_by Py.isspace linha) as [| c t] eqn:L; [now contradiction N |].
  apply lstrip_by_head in L. rewrite (rstrip_by_cons _ c t L).
  exists c, (Py.rstrip_by Py.isspace t). split; [reflexivity |]. split; [assumption |].
  rewrite <- (rstrip_by_cons _ c t L). apply rstrip_by_idem.
Qed.

Lemma identifiers_are_trimmed_witness :
  run kept_order sample_dir = Ok sample_frame /\ Py.strip "A0002" = "A0002".
Proof.
  split; [reflexivity |].
  refine (proj1 (identifiers_are_trimmed kept_order sample_dir sample_frame "A0002" eq_refl _)).
  right; right; left; reflexivity.
Defined.

(** ** The list of line 26 *)

Lemma string_ltb_asym a b : String.ltb a b = true -> String.ltb b a = false.
Proof.
  unfold String.ltb. rewrite (String.compare_antisym b a).
  now destruct (String.compare a b).
Qed.

Lemma string_ltb_total a b : a <> b -> String.ltb b a = false -> String.ltb a b = true.
Proof.
  unfold String.ltb. intros N. rewrite (String.compare_antisym b a).
  destruct (String.compare a b) eqn:E; simpl; try congruence.
  apply String.compare_eq_iff in E. contradiction.
Qed.

Lemma Sorted_strict (l : list string) :
  NoDup l -> Sorted (fun a b => String.ltb b a = false) l ->
  Sorted (fun a b => String.ltb a b = true) l.
Proof.
  induction l as [| a l IH]; intros ND S; [constructor |].
  inversion ND as [| ? ? Hnot ND']; inversion S as [| ? ? S' Hd]; subst.
  constructor; [now apply IH |].
  destruct l as [| b l]; constructor. inversion Hd; subst.
  apply string_ltb_total; [| assumption]. intros ->. apply Hnot. now left.
Qed.

Lemma uniao_In order (por_arquivo : dict (list string)) x :
  NoDup (dict_keys por_arquivo) ->
  In x (uniao order por_arquivo) <->
  exists c refs, dict_get c por_arquivo = Some refs /\ In x refs.
Proof.
  intros ND. unfold uniao. rewrite set_iter_In, in_concat. split.
  - intros (refs & Hrefs & Hx). apply in_map_iff in Hrefs as ([c refs'] & <- & Hin).
    exists c, refs'. split; [now apply dict_In_get | assumption].
  - intros (c & refs & Hget & Hx). exists refs. split; [| assumption].
    apply dict_get_Some_In in Hget. change refs with (snd (c, refs)). now apply in_map.
Qed.

(** X13. The list that line 26 first assigns to [todas_referencias] is
    always built: it holds, once each and in strictly ascending code-point
    order, the identifiers of the sets stored in [referencias_por_arquivo].
    Each of them is a row of the matrix, and when the discovered files
    derive pairwise distinct keys the list and the rows hold the same
    identifiers; line 28 then replaces the alphabetical order by the order
    of the tally. *)
Theorem primeira_lista_is_alphabetical (order : SetOrder) (dir : list entry) :
  let por_arquivo := fst (read_files order (glob_rq_txt dir)) in
  exists l,
    primeira_lista order por_arquivo = Ok l /\
    NoDup l /\
    Sorted (fun a b => String.ltb a b = true) l /\
    (forall x, In x l <->
               exists c refs, dict_get c por_arquivo = Some refs /\ In x refs) /\
    (forall m, run order dir = Ok m ->
               (forall x, In x l -> In x (index m)) /\
               (NoDup (derived_keys (glob_rq_txt dir)) -> Permutation l (index m))).
Proof.
  intros por_arquivo. subst por_arquivo.
  set (pa := fst (read_files order (glob_rq_txt dir))).
  assert (NDk : NoDup (dict_keys pa)) by apply por_arquivo_keys_NoDup.
  destruct (sorted_total String.ltb (fun x : string => Ok x) (uniao order pa)) as [l Hl];
    [eauto |].
  pose proof (sorted_Ok String.ltb (fun x : string => Ok x) string_ltb_asym _ _ Hl) as [P S].
  assert (ND : NoDup l).
  { eapply Permutation_NoDup; [symmetry; exact P | apply set_iter_NoDup]. }
  assert (Hin : forall x, In x l <-> exists c refs, dict_get c pa = Some refs /\ In x refs).
  { intros x. rewrite <- (uniao_In order pa x NDk).
    split; apply Permutation_in; [assumption | now symmetry]. }
  assert (Hrow : forall m, run order dir = Ok m -> forall x, In x l -> In x (index m)).
  { intros m H x Hx. apply Hin in Hx as (c & refs & Hget & Hx).
    apply dict_get_Some_In in Hget.
    now apply (fill_labels_present order dir m c refs H Hget). }
  exists l. split; [exact Hl |]. split; [exact ND |]. split; [| split; [exact Hin |]].
  - apply Sorted_strict; [assumption |].
    rewrite <- (map_id l).
    apply Sorted_map_strengthen with (P := fun _ => True)
                                     (R := ascending String.ltb (fun x : string => Ok x));
      [| apply Forall_forall; trivial | assumption].
    intros a b _ _ (ka & kb & [= <-] & [= <-] & Hlt). exact Hlt.
  - intros m H. split; [now apply Hrow |]. intros NDf.
    apply NoDup_Permutation; [assumption | now apply (run_index_NoDup order dir) |].
    intros x. split; [now apply Hrow |]. intros Hx.
    apply (run_index_In order dir m x H) in Hx as (e & He & Hx).
    apply Hin. exists (file_key (fst e)), (referencias order (snd e)).
    split; [| assumption].
    apply por_arquivo_last. now apply distinct_keys_last.
Qed.

(** ** The size of the figure *)

Lemma py_max_cases (a b : Q) :
  (a <= py_max a b)%Q /\ (b <= py_max a b)%Q /\
  ((b <= a)%Q -> py_max a b = a) /\ ((a < b)%Q -> py_max a b = b).
Proof.
  unfold py_max. destruct (Qlt_le_dec a b) as [L | L].
  - repeat split.
    + now apply Qlt_le_weak.
    + apply Qle_refl.
    + intros H. exfalso. apply (Qlt_irrefl a). now apply Qlt_le_trans with (y := b).
  - repeat split.
    + apply Qle_refl.
    + assumption.
    + intros H. exfalso. apply (Qlt_irrefl a). now apply Qlt_le_trans with (y := b).
Qed.

(** X14. The figure is never smaller than 6 by 4: its height is 4 up to
    16 rows and a quarter per row beyond, its width is 6 up to 12 columns
    and a half per column beyond. *)
Theorem figure_size (df : DataFrame) :
  (4 <= altura df)%Q /\ (6 <= largura df)%Q /\
  (n_linhas df <= 16 -> altura df = inject_Z 4) /\
  (16 < n_linhas df -> altura df = Qmult (inject_Z (Z.of_nat (n_linhas df))) altura_por_linha) /\
  (n_colunas df <= 12 -> largura df = inject_Z 6) /\
  (12 < n_colunas df ->
   largura df = Qmult (inject_Z (Z.of_nat (n_colunas df))) largura_por_coluna).
Proof.
  unfold altura, largura, altura_por_linha, largura_por_coluna.
  set (a := Qmult (inject_Z (Z.of_nat (n_linhas df))) (Qmake 1 4)).
  set (w := Qmult (inject_Z (Z.of_nat (n_colunas df))) (Qmake 1 2)).
  destruct (py_max_cases (inject_Z 4) a) as (A1 & _ & A3 & A4).
  destruct (py_max_cases (inject_Z 6) w) as (W1 & _ & W3 & W4).
  split; [exact A1 |]. split; [exact W1 |].
  split; [| split; [| split]]; intros H.
  - apply A3. subst a. unfold Qle. simpl. clear - H. lia.
  - apply A4. subst a. unfold Qlt. simpl. clear - H. lia.
  - apply W3. subst w. unfold Qle. simpl. clear - H. lia.
  - apply W4. subst w. unfold Qlt. simpl. clear - H. lia.
Qed.

Lemma figure_size_witness :
  altura sample_frame = inject_Z 4 /\ largura sample_frame = inject_Z 6.
Proof.
  destruct (figure_size sample_frame) as (_ & _ & Ha & _ & Hw & _).
  split; [apply Ha | apply Hw]; unfold n_linhas, n_colunas; simpl; lia.
Defined.

(** ** The tally, continued *)

(** X15. Every count of the tally lies between 1 and the number of
    discovered files, key collisions or not. *)
Theorem tally_bounds (order : SetOrder) (dir : list entry) (x : string) (n : Z) :
  dict_get x (snd (read_files order (glob_rq_txt dir))) = Some n ->
  (1 <= n <= Z.of_nat (length (glob_rq_txt dir)))%Z.
Proof.
  rewrite tally_read_files.
  pose proof (file_frequency_nonneg order (glob_rq_txt dir) x) as Hge.
  destruct (Z.eqb_spec (file_frequency order (glob_rq_txt dir) x) 0) as [E | N];
    [discriminate |].
  intros [= <-]. split; [lia |]. unfold file_frequency.
  apply Nat2Z.inj_le, filter_length_le.
Qed.

Lemma tally_bounds_witness :
  (1 <= 2 <= Z.of_nat (length (glob_rq_txt sample_dir)))%Z.
Proof. exact (tally_bounds kept_order sample_dir "A0001" 2 eq_refl). Defined.

(** ** Line ends *)

Lemma readlines_aux_LF cur l rest :
  no_newline l = true ->
  Py.readlines_aux cur (l ++ LFs ++ rest) =
  (cur ++ l ++ LFs)%string :: Py.readlines_aux EmptyString rest.
Proof.
  unfold no_newline. revert cur. induction l as [| c l IH]; intros cur H.
  - reflexivity.
  - cbn [all_chars] in H. apply andb_prop in H as [Hc H].
    apply negb_true_iff, orb_false_iff in Hc as [H1 H2].
    cbn [append Py.readlines_aux]. rewrite H1, H2, IH by assumption.
    now rewrite append_snoc.
Qed.

Lemma readlines_aux_CRLF cur l rest :
  no_newline l = true ->
  Py.readlines_aux cur (l ++ CRLFs ++ rest) =
  (cur ++ l ++ LFs)%string :: Py.readlines_aux EmptyString rest.
Proof.
  unfold no_newline. revert cur. induction l as [| c l IH]; intros cur H.
  - reflexivity.
  - cbn [all_chars] in H. apply andb_prop in H as [Hc H].
    apply negb_true_iff, orb_false_iff in Hc as [H1 H2].
    cbn [append Py.readlines_aux]. rewrite H1, H2, IH by assumption.
    now rewrite append_snoc.
Qed.

Lemma readlines_text ls :
  (forall l, In l ls -> no_newline l = true) ->
  Py.readlines (text ls) = map (fun l => (l ++ LFs)%string) ls /\
  Py.readlines (text_crlf ls) = map (fun l => (l ++ LFs)%string) ls.
Proof.
  unfold Py.readlines. induction ls as [| l ls IH]; intros H; [split; reflexivity |].
  destruct IH as [IH1 IH2]; [intros l' Hl'; apply H; now right |].
  cbn [text text_crlf fold_right map]. fold (text ls). fold (text_crlf ls).
  rewrite readlines_aux_LF, readlines_aux_CRLF by (apply H; now left).
  cbn [append]. now rewrite IH1, IH2.
Qed.

Lemma rstrip_by_snoc p s c :
  p c = true -> Py.rstrip_by p (s ++ String c EmptyString) = Py.rstrip_by p s.
Proof.
  intros Hc. induction s as [| a s IH]; cbn [append Py.rstrip_by].
  - now rewrite Hc.
  - now rewrite IH.
Qed.

Lemma lstrip_by_snoc p s c :
  p c = true ->
  Py.lstrip_by p (s ++ String c EmptyString) =
  if all_chars p s then EmptyString
  else (Py.lstrip_by p s ++ String c EmptyString)%string.
Proof.
  intros Hc. induction s as [| a s IH]; cbn [append Py.lstrip_by all_chars].
  - now rewrite Hc.
  - destruct (p a); [exact IH | reflexivity].
Qed.

Lemma strip_snoc s c : Py.isspace c = true -> Py.strip (s ++ String c EmptyString) = Py.strip s.
Proof.
  intros Hc. unfold Py.strip. rewrite lstrip_by_snoc by assumption.
  destruct (all_chars Py.isspace s) eqn:B.
  - apply lstrip_by_empty in B. now rewrite B.
  - now apply rstrip_by_snoc.
Qed.

(** X16. The identifiers of a file do not depend on how its lines end: a
    file whose lines end in "\n" and the file with the same lines ended in
    "\r\n" have the same identifiers, the stripped texts of the lines that
    are not blank. *)
Theorem line_ends_do_not_matter (order : SetOrder) (ls : list string) (x : string) :
  (forall l, In l ls -> no_newline l = true) ->
  (In x (referencias order (text ls)) <->
   exists l, In l ls /\ Py.strip l = x /\ x <> EmptyString) /\
  (In x (referencias order (text_crlf ls)) <-> In x (referencias order (text ls))).
Proof.
  intros H. destruct (readlines_text ls H) as [E1 E2].
  assert (K : forall contents,
            Py.readlines contents = map (fun l => (l ++ LFs)%string) ls ->
            (In x (referencias order contents) <->
             exists l, In l ls /\ Py.strip l = x /\ x <> EmptyString)).
  { intros contents E. rewrite referencias_In. unfold identifier_of. rewrite E. split.
    - intros (linha & Hin & Hs & N). apply in_map_iff in Hin as (l & <- & Hl).
      exists l. rewrite <- Hs. unfold LFs. rewrite strip_snoc by reflexivity.
      repeat split; try assumption. rewrite <- Hs in N. unfold LFs in N.
      now rewrite strip_snoc in N by reflexivity.
    - intros (l & Hl & Hs & N). exists (l ++ LFs)%string. split.
      + now apply (in_map (fun l => (l ++ LFs)%string)).
      + unfold LFs. rewrite strip_snoc by reflexivity. now split. }
  split; [now apply K |]. rewrite (K _ E1), (K _ E2). tauto.
Qed.

Lemma line_ends_do_not_matter_witness :
  In "A0002" (referencias kept_order (text_crlf ["A0001"; " A0002 "; ""])) <->
  In "A0002" (referencias kept_order (text ["A0001"; " A0002 "; ""])).
Proof.
  refine (proj2 (line_ends_do_not_matter kept_order ["A0001"; " A0002 "; ""] "A0002" _)).
  intros l [<- | [<- | [<- | []]]]; reflexivity.
Defined.

(** ** Runs under two iteration orders *)

Lemma por_arquivo_mem order order' arquivos c r :
  match dict_get c (fst (read_files order arquivos)) with
  | Some refs => mem r refs
  | None => false
  end =
  match dict_get c (fst (read_files order' arquivos)) with
  | Some refs => mem r refs
  | None => false
  end.
Proof.
  destruct (in_dec string_dec c (derived_keys arquivos)) as [Hc | Hc].
  - assert (He : exists e, In e arquivos /\ file_key (fst e) = c).
    { apply in_map_iff in Hc as (e & E & He). eauto. }
    apply last_with_key_exists in He as [e He].
    rewrite (por_arquivo_last order _ _ _ He), (por_arquivo_last order' _ _ _ He).
    apply mem_referencias_ext.
  - assert (N : forall o, dict_get c (fst (read_files o arquivos)) = None).
    { intros o. apply dict_get_None. rewrite por_arquivo_keys. intros (e & He & E).
      apply Hc. rewrite <- E. now apply (in_map (fun e => file_key (fst e))). }
    now rewrite !N.
Qed.

Lemma Sorted_perm_eq {A : Type} (le : A -> A -> Prop) (l l' : list A) :
  (forall a b c, le a b -> le b c -> le a c) ->
  (forall a b, le a b -> le b a -> a = b) ->
  Sorted le l -> Sorted le l' -> Permutation l l' -> l = l'.
Proof.
  intros Htrans Hanti S S'.
  apply Sorted_StronglySorted in S; [| exact Htrans].
  apply Sorted_StronglySorted in S'; [| exact Htrans].
  revert l' S'. induction S as [| a l S IH Ha]; intros l' S' P.
  - apply Permutation_nil in P. now subst.
  - destruct S' as [| b l' S' Hb].
    + symmetry in P. apply Permutation_nil in P. discriminate.
    + assert (E : a = b).
      { assert (Hb_in : In b (a :: l)).
        { apply Permutation_in with (l := b :: l'); [now symmetry | now left]. }
        assert (Ha_in : In a (b :: l')).
        { apply Permutation_in with (l := a :: l); [assumption | now left]. }
        destruct Hb_in as [E | Hb_in]; [assumption |].
        destruct Ha_in as [E | Ha_in]; [now symmetry |].
        rewrite Forall_forall in Ha, Hb. apply Hanti; [now apply Ha | now apply Hb]. }
      subst b. f_equal. apply IH; [assumption |]. now apply Permutation_cons_inv in P.
Qed.

Lemma file_frequency_ext order order' arquivos x :
  file_frequency order arquivos x = file_frequency order' arquivos x.
Proof.
  unfold file_frequency. do 2 f_equal. apply filter_ext. intros e.
  apply mem_referencias_ext.
Qed.

Lemma run_keys_sorted order dir m :
  run order dir = Ok m ->
  Sorted key_le (map (row_sort_key order (glob_rq_txt dir)) (index m)).
Proof.
  intros H. apply run_Ok in H as (items & Hitems & -> & _).
  apply (sorted_Ok tuple_ltb row_key tuple_ltb_asym) in Hitems as [P S].
  rewrite map_map.
  apply Sorted_map_strengthen
    with (P := fun x => snd x = file_frequency order (glob_rq_txt dir) (fst x))
         (R := ascending tuple_ltb row_key); [| | assumption].
  - intros [a na] [b nb] Pa Pb (ka & kb & Ha & Hb & Hlt). cbn [fst snd] in *.
    unfold row_sort_key. rewrite <- Pa, <- Pb. exists ka, kb.
    repeat split; try assumption. now apply tuple_ltb_false.
  - apply Forall_forall. intros [x n] Hx. simpl.
    apply Permutation_in with (1 := P) in Hx.
    apply dict_In_get in Hx; [| apply tally_keys_NoDup_read_files].
    rewrite tally_read_files in Hx.
    destruct (file_frequency order (glob_rq_txt dir) x =? 0)%Z; congruence.
Qed.

Lemma key_le_trans a b c : key_le a b -> key_le b c -> key_le a c.
Proof.
  intros (x & y & -> & -> & H1) (y' & z & E & -> & H2). injection E as <-.
  exists x, z. repeat split. destruct x, y, z. unfold lex_le in *. simpl in *. lia.
Qed.

Lemma key_le_antisym a b : key_le a b -> key_le b a -> a = b.
Proof.
  intros (x & y & -> & -> & H1) (y' & x' & E & E' & H2).
  injection E as <-. injection E' as <-. f_equal.
  destruct x, y. unfold lex_le in *. simpl in *. f_equal; lia.
Qed.

(** X17. Two runs over the same directory that differ in the iteration
    order of the sets (the hash seed of the process) agree on whether they
    return, on the columns and their order, on the set of rows and on every
    cell; the two lists of rows carry the same sort key at every position,
    so only rows with one same sort key may change places, and on a file
    that holds A0001 and B0001 they do. *)
Theorem runs_agree_up_to_tied_rows (order order' : SetOrder) :
  (forall dir,
      (exists m, run order dir = Ok m) <-> (exists m', run order' dir = Ok m')) /\
  (forall dir m m',
      run order dir = Ok m -> run order' dir = Ok m' ->
      columns m' = columns m /\
      Permutation (index m) (index m') /\
      (forall r c, at_get m r c = at_get m' r c) /\
      map (row_sort_key order (glob_rq_txt dir)) (index m) =
      map (row_sort_key order (glob_rq_txt dir)) (index m')) /\
  (exists m m',
      run kept_order tied_rows_dir = Ok m /\
      run reversed_order tied_rows_dir = Ok m' /\
      index m <> index m').
Proof.
  split; [| split].
  - intros dir.
    assert (K : forall o o', (exists m, run o dir = Ok m) -> exists m', run o' dir = Ok m').
    { intros o o' [m H]. apply run_returns.
      - intros e x He Hx.
        assert (Hk : In x (index m)).
        { apply (run_index_identifier o dir m x H). eauto. }
        apply run_Ok in H as (items & Hitems & Hidx & _).
        rewrite Hidx in Hk. apply in_map_iff in Hk as ([x' n] & E & Hin).
        simpl in E. subst x'.
        assert (Hin' : In (x, n) (snd (read_files o (glob_rq_txt dir)))).
        { apply Permutation_in with (2 := Hin).
          now apply (sorted_Ok tuple_ltb row_key tuple_ltb_asym) in Hitems as [P _]. }
        destruct (sorted_Ok_keys _ _ _ _ Hitems _ Hin') as [k Hk].
        apply row_key_Ok in Hk as (z & Hz & _). eauto.
      - intros e He. apply run_Ok in H as (_ & _ & _ & Hcols & _).
        apply (sorted_Ok_keys _ _ _ _ Hcols). apply (por_arquivo_keys o). eauto. }
    split; apply K.
  - intros dir m m' H H'.
    assert (Hc : columns m' = columns m).
    { pose proof H as H0. pose proof H' as H0'.
      apply run_Ok in H0 as (_ & _ & _ & Hcols & _).
      apply run_Ok in H0' as (_ & _ & _ & Hcols' & _).
      rewrite por_arquivo_keys_first_seen in Hcols, Hcols'. congruence. }
    assert (Hi : forall r, In r (index m) <-> In r (index m')).
    { intros r. rewrite (run_index_identifier order dir m r H).
      now rewrite (run_index_identifier order' dir m' r H'). }
    assert (Hp : Permutation (index m) (index m')).
    { apply NoDup_Permutation;
        [now apply (run_index_NoDup order dir) | now apply (run_index_NoDup order' dir) |
         exact Hi]. }
    split; [exact Hc |]. split; [exact Hp |]. split.
    + intros r c.
      destruct (in_dec string_dec r (index m)) as [Hr | Hr];
        [destruct (in_dec string_dec c (columns m)) as [Hcol | Hcol] |].
      * rewrite (run_cell order dir m r c H Hr Hcol).
        rewrite (run_cell order' dir m' r c H');
          [| exact (proj1 (Hi r) Hr) | now rewrite Hc].
        f_equal.
        pose proof (por_arquivo_mem order order' (glob_rq_txt dir) c r) as Hm.
        destruct (dict_get c (fst (read_files order (glob_rq_txt dir)))),
                 (dict_get c (fst (read_files order' (glob_rq_txt dir))));
          try rewrite Hm; try rewrite <- Hm; reflexivity.
      * rewrite (run_cell_None order dir m r c H) by tauto.
        rewrite (run_cell_None order' dir m' r c H'); [reflexivity | rewrite Hc; tauto].
      * rewrite (run_cell_None order dir m r c H) by tauto.
        rewrite (run_cell_None order' dir m' r c H'); [reflexivity |].
        left. intros Hr'. apply Hr. exact (proj2 (Hi r) Hr').
    + apply (Sorted_perm_eq key_le).
      * exact key_le_trans.
      * exact key_le_antisym.
      * now apply run_keys_sorted.
      * replace (map (row_sort_key order (glob_rq_txt dir)) (index m'))
          with (map (row_sort_key order' (glob_rq_txt dir)) (index m')).
        -- now apply run_keys_sorted.
        -- apply map_ext. intros x. unfold row_sort_key.
           now rewrite (file_frequency_ext order' order).
      * now apply Permutation_map.
  - exists {| index := ["A0001"; "B0001"]; columns := ["RQ1"]; values := [[1]; [1]]%Z |},
           {| index := ["B0001"; "A0001"]; columns := ["RQ1"]; values := [[1]; [1]]%Z |}.
    split; [reflexivity |]. split; [reflexivity |]. discriminate.
Qed.

Lemma runs_agree_up_to_tied_rows_witness :
  columns sample_frame = columns sample_frame /\
  Permutation (index sample_frame) (index sample_frame).
Proof.
  destruct (proj1 (proj2 (runs_agree_up_to_tied_rows kept_order reversed_order))
              sample_dir sample_frame sample_frame eq_refl eq_refl) as (Hc & Hp & _).
  split; assumption.
Defined.

(** ** Runs over files that may fail to be read *)

Lemma read_all_inl l arquivos :
  read_all l = inl arquivos <-> l = map (fun e => (fst e, inl (snd e))) arquivos.
Proof.
  revert arquivos. induction l as [| [name [contents | err]] l IH]; intros arquivos; simpl.
  - split.
    + intros [= <-]. reflexivity.
    + intros E. destruct arquivos; [reflexivity | discriminate].
  - destruct (read_all l) as [files | err] eqn:R.
    + split.
      * intros [= <-]. simpl. f_equal. now apply IH.
      * intros E. destruct arquivos as [| [n c] arquivos]; [discriminate |].
        simpl in E. injection E as -> -> E. apply IH in E. now injection E as <-.
    + split; [discriminate |]. intros E.
      destruct arquivos as [| [n c] arquivos]; [discriminate |].
      simpl in E. injection E as -> -> E. apply IH in E. discriminate.
  - split; [discriminate |]. intros E.
    destruct arquivos as [| [n c] arquivos]; discriminate.
Qed.

Lemma read_all_inr l err :
  read_all l = inr err <->
  exists before name after,
    l = before ++ (name, inr err) :: after /\ Forall readable before.
Proof.
  induction l as [| [name [contents | e]] l IH]; simpl.
  - split; [discriminate |]. intros (before & n & after & E & _).
    destruct before; discriminate.
  - destruct (read_all l) as [files | e'] eqn:R.
    + split; [discriminate |]. intros (before & n & after & E & F).
      destruct before as [| b before]; [discriminate |]. injection E as <- E.
      inversion F; subst.
      exfalso. assert (C : @inl (list entry) read_error files = inr err).
      { apply IH. eauto. }
      discriminate C.
    + split.
      * intros [= ->]. destruct (proj1 IH eq_refl) as (before & n & after & -> & F).
        exists ((name, inl contents) :: before), n, after. split; [reflexivity |].
        constructor; [now exists contents | assumption].
      * intros (before & n & after & E & F).
        destruct before as [| b before]; [discriminate |]. injection E as <- E.
        inversion F; subst. f_equal.
        assert (C : @inr (list entry) read_error e' = inr err) by (apply IH; eauto).
        now injection C.
  - split.
    + intros [= ->]. exists [], name, l. split; [reflexivity | constructor].
    + intros (before & n & after & E & F). destruct before as [| b before].
      * now injection E as _ ->.
      * injection E as <- _. inversion F as [| ? ? [c Hc] _]; subst. discriminate Hc.
Qed.

Lemma read_all_readable l :
  Forall readable l -> exists arquivos, read_all l = inl arquivos.
Proof.
  induction 1 as [| [name [c | e]] l [c' Hc] F [files IH]]; simpl.
  - eauto.
  - rewrite IH. eauto.
  - discriminate Hc.
Qed.

Lemma glob_of_read dir arquivos :
  read_all (glob_fs dir) = inl arquivos -> glob_rq_txt arquivos = arquivos.
Proof.
  intros R. apply read_all_inl in R.
  assert (M : forall e, In e arquivos -> fnmatch_rq_txt (fst e) = true).
  { intros e He.
    assert (Hin : In (fst e, @inl string read_error (snd e)) (glob_fs dir)).
    { rewrite R. now apply (in_map (fun e => (fst e, inl (snd e)))). }
    now apply filter_In in Hin as [_ Hin]. }
  clear R. unfold glob_rq_txt. induction arquivos as [| e l IH]; [reflexivity |].
  cbn [filter]. rewrite (M e (or_introl eq_refl)). rewrite IH; [reflexivity |].
  intros e' He'. apply M. now right.
Qed.

Lemma read_all_In dir arquivos e :
  read_all (glob_fs dir) = inl arquivos ->
  In e arquivos <-> In (fst e, inl (snd e)) (glob_fs dir).
Proof.
  intros R. apply read_all_inl in R. rewrite R, in_map_iff. split.
  - intros He. exists e. split; [reflexivity | assumption].
  - intros ([n c] & E & He). cbn [fst snd] in E. destruct e as [n' c'].
    cbn [fst snd] in E. now injection E as <- <-.
Qed.

(** X3. Steps 1 to 4 return a matrix exactly when every discovered file
    can be read, [int] parses the last four characters of every identifier
    of the discovered files, and it parses the text after "RQ" of every
    discovered file's key. *)
Theorem run_returns_iff (order : SetOrder) (dir : list fs_entry) :
  (exists m, run_fs order dir = Returned m) <->
  (forall e, In e (glob_fs dir) ->
     exists contents,
       snd e = inl contents /\
       (forall x, identifier_of contents x -> exists n, Py.int (Py.slice_last 4 x) = Ok n) /\
       exists n, column_key (file_key (fst e)) = Ok n).
Proof.
  unfold run_fs. split.
  - intros [m H]. destruct (read_all (glob_fs dir)) as [arquivos | err] eqn:R;
      [| discriminate].
    destruct (steps_2_to_4 order arquivos) as [m' | e'] eqn:S; [| discriminate].
    pose proof (glob_of_read dir arquivos R) as G.
    assert (S' : exists m, run order arquivos = Ok m).
    { exists m'. unfold run. rewrite G. exact S. }
    apply run_model_returns_iff in S' as [Hrows Hcols]. rewrite G in Hrows, Hcols.
    intros [name [contents | err]] He.
    + assert (Hin : In (name, contents) arquivos) by now apply (read_all_In dir arquivos).
      exists contents. split; [reflexivity |]. split.
      * intros x Hx. now apply (Hrows (name, contents) x).
      * now apply (Hcols (name, contents)).
    + apply read_all_inl in R. rewrite R in He. apply in_map_iff in He as (e0 & E & _).
      discriminate E.
  - intros H.
    destruct (read_all_readable (glob_fs dir)) as [arquivos R].
    { apply Forall_forall. intros e He. destruct (H e He) as (c & Hc & _). now exists c. }
    rewrite R. pose proof (glob_of_read dir arquivos R) as G.
    destruct (run_returns order arquivos) as [m Hm].
    + rewrite G. intros e x He Hx. apply (read_all_In dir arquivos e R) in He.
      destruct (H _ He) as (c & Hc & Hrows & _). cbn [snd] in Hc. injection Hc as <-.
      now apply Hrows.
    + rewrite G. intros e He. apply (read_all_In dir arquivos e R) in He.
      destruct (H _ He) as (c & _ & _ & Hcols). exact Hcols.
    + unfold run in Hm. rewrite G in Hm. unfold steps_2_to_4. rewrite Hm. eauto.
Qed.

(** X4. Steps 1 to 4 end in one of three ways.  They raise the read error
    of the first discovered file that cannot be read, whatever the other
    files hold; otherwise they return a matrix or raise [ValueError].  They
    never raise [IndexError]: the index 1 into the pieces of [split('RQ')]
    is in range, because the key of a discovered file starts with "RQ". *)
Theorem run_raises_only_ValueError (order : SetOrder) (dir : list fs_entry) :
  (forall e, run_fs order dir = Raised e -> e = ValueError) /\
  (forall err,
      run_fs order dir = ReadRaised err <->
      exists before name after,
        glob_fs dir = before ++ (name, inr err) :: after /\ Forall readable before).
Proof.
  unfold run_fs. split.
  - intros e H. destruct (read_all (glob_fs dir)) as [arquivos | err] eqn:R;
      [| discriminate].
    destruct (steps_2_to_4 order arquivos) as [m' | e'] eqn:S; [discriminate |].
    injection H as ->. apply (run_model_raises_ValueError order arquivos).
    unfold run. rewrite (glob_of_read dir arquivos R). exact S.
  - intros err. rewrite <- read_all_inr.
    destruct (read_all (glob_fs dir)) as [arquivos | err'].
    + destruct (steps_2_to_4 order arquivos); split; discriminate.
    + split; intros [= ->]; reflexivity.
Qed.

Lemma run_raises_only_ValueError_witness :
  run_fs kept_order fs_unreadable = ReadRaised OSError /\
  run_fs kept_order [("rq1.txt", inl (text ["A1"]))] = Raised ValueError /\
  ValueError = ValueError.
Proof.
  split; [| split; [reflexivity |]].
  - apply (proj2 (run_raises_only_ValueError kept_order fs_unreadable)).
    exists [("rq1.txt", inl (text ["A1"]))], "rq2.txt", [("rq3.txt", inr UnicodeDecodeError)].
    split; [reflexivity |]. repeat constructor. now exists (text ["A1"]).
  - exact (proj1 (run_raises_only_ValueError kept_order [("rq1.txt", inl (text ["A1"]))])
             ValueError eq_refl).
Defined.

(** X10. A directory whose discovered files are all named [rq<n>.txt], can
    all be read and hold only identifiers that end in four decimal digits
    always yields a matrix: on such input steps 1 to 4 do not raise. *)
Theorem well_formed_directory_returns (order : SetOrder) (dir : list fs_entry) :
  (forall e, In e (glob_fs dir) ->
     (exists n, fst e = ("rq" ++ numeral n ++ ".txt")%string) /\
     exists contents,
       snd e = inl contents /\
       forall x, identifier_of contents x ->
                 exists p s, x = (p ++ s)%string /\ String.length s = 4 /\
                             all_chars is_digit s = true) ->
  exists m, run_fs order dir = Returned m.
Proof.
  intros H. unfold run_fs.
  destruct (read_all_readable (glob_fs dir)) as [arquivos R].
  { apply Forall_forall. intros e He. destruct (H e He) as (_ & c & Hc & _). now exists c. }
  rewrite R. pose proof (glob_of_read dir arquivos R) as G.
  destruct (run_model_well_formed order arquivos) as [m Hm].
  - rewrite G. intros e He. apply (read_all_In dir arquivos e R) in He.
    now destruct (H _ He) as (Hn & _).
  - rewrite G. intros e x He Hx. apply (read_all_In dir arquivos e R) in He.
    destruct (H _ He) as (_ & c & Hc & Hids). cbn [snd] in Hc. injection Hc as <-.
    now apply Hids.
  - unfold run in Hm. rewrite G in Hm. unfold steps_2_to_4. rewrite Hm. eauto.
Qed.

Lemma well_formed_directory_returns_witness :
  exists m, run_fs kept_order fs_sample = Returned m.
Proof.
  apply well_formed_directory_returns.
  intros e [<- | [<- | []]]; cbn [fst snd].
  - split; [exists 1; reflexivity |]. exists (text ["A0001"; "A0002"]).
    split; [reflexivity |]. intros x Hx. apply (referencias_In kept_order) in Hx.
    vm_compute in Hx.
    destruct Hx as [<- | [<- | []]]; [exists "A", "0001" | exists "A", "0002"];
      repeat split; reflexivity.
  - split; [exists 2; reflexivity |]. exists (text ["A0002"]).
    split; [reflexivity |]. intros x Hx. apply (referencias_In kept_order) in Hx.
    vm_compute in Hx.
    destruct Hx as [<- | []]. exists "A", "0002". repeat split; reflexivity.
Defined.
